(** * usd-rate-chart: the data-acquisition core of [main.go]

    A shallow embedding of the TTL cache, the rate parser, the XML fetch
    pipeline and the currency service of [main.go], and the properties of
    the specification that concern them.

    Conventions.
    - A Go [string] is a sequence of bytes: [string] of the Standard Library.
    - A Go result pair [(v, err)] is a value of [error + A]: every function
      of [main.go] returns the zero value of [A] next to a non-nil error, so
      nothing is lost.  A pair [(v, ok)] is a value of [option A].
    - [float64] is the primitive binary64 type [float].
    - [time.Time] is an instant in nanoseconds together with its location
      (the offsets of the zone and the instants at which they change);
      [time.Duration] is a number of nanoseconds.
    - What the environment does during a call (the clock readings, the
      construction of the request, the answer of the network) is an
      argument of the call; the state of the service (its cache, and the
      requests handed to its client) is passed in and returned.
    - The functions of the Go libraries that [main.go] calls
      ([strings.Replace], [strconv.ParseFloat], [fmt.Sprintf] and package
      [time]) are modelled from their documented behaviour, on the inputs
      [main.go] gives them. *)

From Stdlib Require Import ZArith Floats SpecFloat Ascii String.
From stdpp Require Import gmap strings list fin_maps pretty.

Open Scope string_scope.
Open Scope Z_scope.

#[local] Set Warnings "-inexact-float".

(** ** Errors *)

(** The error values [main.go], [strconv] and [encoding/json] build.
    [errorString s] is [errors.New(s)] or a [fmt.Errorf] without [%w], its
    message is [s]; [wrapError p e] is [fmt.Errorf(p + "%w", e)], its
    message is [p] followed by the message of [e] and it unwraps to [e];
    [NumError] is [*strconv.NumError]; [UnsupportedValueError Str] is
    [*json.UnsupportedValueError], its message is
    ["json: unsupported value: "] followed by [Str]. *)
Inductive error : Type :=
  | errorString (s : string)
  | wrapError (prefix : string) (err : error)
  | NumError (Func Num : string) (Err : error)
  | UnsupportedValueError (Str : string).

Definition result (A : Type) : Type := (error + A)%type.

Definition ErrSyntax : error := errorString "invalid syntax".
Definition ErrRange : error := errorString "value out of range".

(** The taxonomy of section 7 of the specification, read onto the error
    values of the code: which of the three kinds an error built by
    [main.go] belongs to. *)
Inductive ErrorKind : Type := FetchError | ParseError | NotFoundError.

Definition kindOf (e : error) : option ErrorKind :=
  match e with
  | wrapError p _ =>
      if String.eqb p "failed to create request: " then Some FetchError
      else if String.eqb p "failed to fetch data: " then Some FetchError
      else if String.eqb p "failed to parse XML: " then Some ParseError
      else if String.eqb p "failed to parse rate: " then Some ParseError
      else None
  | errorString s =>
      if String.eqb s "USD rate not found" then Some NotFoundError
      else if String.prefix "unexpected status code: " s then Some FetchError
      else None
  | NumError _ _ _ => None
  | UnsupportedValueError _ => None
  end.

(** ** Package [strings] *)

Module Strings.

(** [strings.Index(s, substr)]: the first index of [substr] in [s]. *)
Definition Index (s substr : string) : option nat := String.index 0 substr s.

(** The loop of [strings.Replace] for a non-empty [old]: at most [n]
    replacements, left to right, each search starting after the previous
    replacement. *)
Fixpoint replaceLoop (n : nat) (s old new : string) : string :=
  match n with
  | O => s
  | S n' =>
      match Index s old with
      | None => s
      | Some j =>
          String.substring 0 j s +:+ new +:+
          replaceLoop n' (String.substring (j + String.length old)
                            (String.length s - (j + String.length old)) s)
            old new
      end
  end.

(** [strings.Replace(s, old, new, n)] for a non-empty [old] (an empty [old]
    matches at rune boundaries, which [main.go] never asks for).  A
    negative [n] lifts the limit; there are at most [len(s)] matches. *)
Definition Replace (s old new : string) (n : Z) : string :=
  if String.eqb old new || (n =? 0) then s
  else replaceLoop (if n <? 0 then String.length s else Z.to_nat n) s old new.

End Strings.

(** ** Package [strconv]: [ParseFloat(s, 64)] *)

Module Strconv.

Definition code (c : ascii) : Z := Z.of_N (N_of_ascii c).

(** [lower(c)]: [c | ('x' ^ 'X')]. *)
Definition lower (c : ascii) : Z := Z.lor (code c) 32.

Definition isDigit (c : ascii) : bool := (48 <=? code c) && (code c <=? 57).
Definition isHexLetter (c : ascii) : bool := (97 <=? lower c) && (lower c <=? 102).

(** [commonPrefixLenIgnoreCase(s, prefix)], [prefix] in lower case. *)
Fixpoint commonPrefixLenIgnoreCase (s prefix : string) : nat :=
  match s, prefix with
  | String c s', String p prefix' =>
      let c' := if (65 <=? code c) && (code c <=? 90) then code c + 32 else code c in
      if c' =? code p then S (commonPrefixLenIgnoreCase s' prefix') else O
  | _, _ => O
  end.

(** [special(s)]: the (possibly signed) infinities and NaN.  Returns the
    value and the number of bytes read. *)
Definition special (s : string) : option (float * nat) :=
  let inf (neg : bool) (nsign : nat) (s : string) :=
    let n := commonPrefixLenIgnoreCase s "infinity" in
    let n := if (3 <? n)%nat && (n <? 8)%nat then 3%nat else n in
    if (n =? 3)%nat || (n =? 8)%nat
    then Some (if neg then neg_infinity else infinity, (nsign + n)%nat)
    else None in
  match s with
  | EmptyString => None
  | String c s' =>
      if (code c =? 43) || (code c =? 45) then inf (code c =? 45) 1%nat s'
      else if (code c =? 105) || (code c =? 73) then inf false 0%nat s
      else if (code c =? 110) || (code c =? 78) then
        if (commonPrefixLenIgnoreCase s "nan" =? 3)%nat then Some (nan, 3%nat) else None
      else None
  end.

(** The variables of the digit loop of [readFloat].  The mantissa is kept
    exact: [readFloat] keeps 19 digits and a [trunc] flag, and [atof64]
    then goes back to the digits when the flag matters, so the value that
    is rounded is the one of all the digits. *)
Record scan : Type := Scan {
  mantissa : Z;
  nd : Z;
  dp : Z;
  sawdot : bool;
  sawdigits : bool;
  underscores : bool
}.

Definition scan0 : scan := Scan 0 0 0 false false false.

(** The digit loop of [readFloat]; returns the variables and the unread
    rest of the input. *)
Fixpoint readDigits (hex : bool) (s : string) (st : scan) : scan * string :=
  match s with
  | EmptyString => (st, s)
  | String c s' =>
      if code c =? 95 then
        readDigits hex s'
          (Scan (mantissa st) (nd st) (dp st) (sawdot st) (sawdigits st) true)
      else if code c =? 46 then
        if sawdot st then (st, s)
        else readDigits hex s'
               (Scan (mantissa st) (nd st) (nd st) true (sawdigits st) (underscores st))
      else if isDigit c then
        if (code c =? 48) && (nd st =? 0) then
          readDigits hex s'
            (Scan (mantissa st) (nd st) (dp st - 1) (sawdot st) true (underscores st))
        else
          readDigits hex s'
            (Scan (mantissa st * (if hex then 16 else 10) + (code c - 48))
               (nd st + 1) (dp st) (sawdot st) true (underscores st))
      else if hex && isHexLetter c then
        readDigits hex s'
          (Scan (mantissa st * 16 + (lower c - 97 + 10))
             (nd st + 1) (dp st) (sawdot st) true (underscores st))
      else (st, s)
  end.

(** The digits of the exponent: [e] stops growing at 10000; underscores
    are skipped and remembered. *)
Fixpoint readExpDigits (s : string) (e : Z) (us : bool) : Z * bool * string :=
  match s with
  | EmptyString => (e, us, s)
  | String c s' =>
      if code c =? 95 then readExpDigits s' e true
      else if isDigit c then
        readExpDigits s' (if e <? 10000 then e * 10 + (code c - 48) else e) us
      else (e, us, s)
  end.

(** [underscoreOK(s)]: an underscore only between digits, or between a
    base prefix and a digit.  [saw] is the class of the last byte. *)
Inductive sawClass : Type := SawStart | SawDigit | SawUnderscore | SawOther.

Fixpoint underscoreLoop (hex : bool) (saw : sawClass) (s : string) : bool :=
  match s with
  | EmptyString => match saw with SawUnderscore => false | _ => true end
  | String c s' =>
      if isDigit c || (hex && isHexLetter c) then underscoreLoop hex SawDigit s'
      else if code c =? 95 then
        match saw with
        | SawDigit => underscoreLoop hex SawUnderscore s'
        | _ => false
        end
      else
        match saw with
        | SawUnderscore => false
        | _ => underscoreLoop hex SawOther s'
        end
  end.

Definition underscoreOK (s : string) : bool :=
  let s :=
    match s with
    | String c s' => if (code c =? 45) || (code c =? 43) then s' else s
    | EmptyString => s
    end in
  match s with
  | String c0 (String c1 s') =>
      if (code c0 =? 48) && ((lower c1 =? 98) || (lower c1 =? 111) || (lower c1 =? 120))
      then underscoreLoop (lower c1 =? 120) SawDigit s'
      else underscoreLoop false SawStart s
  | _ => underscoreLoop false SawStart s
  end.

(** What [readFloat] hands to the conversion: the sign, the base, the
    exact mantissa and the exponent of the base (10, or 2 for a
    hexadecimal mantissa). *)
Record parsed : Type := Parsed {
  p_neg : bool;
  p_hex : bool;
  p_mantissa : Z;
  p_exp : Z
}.

(** [readFloat(s)]: the parsed number and the count of bytes read, or
    [None] where [readFloat] returns [ok == false]. *)
Definition readFloat (s : string) : option (parsed * nat) :=
  match s with
  | EmptyString => None
  | String c0 t0 =>
      let neg := code c0 =? 45 in
      let t := if (code c0 =? 43) || (code c0 =? 45) then t0 else s in
      let '(hex, t) :=
        match t with
        | String z (String x (String y r)) =>
            if (code z =? 48) && (lower x =? 120) then (true, String y r) else (false, t)
        | _ => (false, t)
        end in
      let '(st, rest) := readDigits hex t scan0 in
      if negb (sawdigits st) then None
      else
        let dp0 := if sawdot st then dp st else nd st in
        let dp0 := if hex then dp0 * 4 else dp0 in
        let ndMant := if hex then nd st * 4 else nd st in
        let expChar := if hex then 112 else 101 in
        let finish (dp1 : Z) (us : bool) (rest : string) :=
          let n := (String.length s - String.length rest)%nat in
          if us && negb (underscoreOK (String.substring 0 n s)) then None
          else Some (Parsed neg hex (mantissa st)
                       (if mantissa st =? 0 then 0 else dp1 - ndMant), n) in
        match rest with
        | String ec r1 =>
            if lower ec =? expChar then
              match r1 with
              | EmptyString => None
              | String sc r2 =>
                  let esign := if code sc =? 45 then (-1) else 1 in
                  let r := if (code sc =? 43) || (code sc =? 45) then r2 else r1 in
                  match r with
                  | EmptyString => None
                  | String d _ =>
                      if negb (isDigit d) then None
                      else
                        let '(e, us, rest') := readExpDigits r 0 (underscores st) in
                        finish (dp0 + e * esign) us rest'
                  end
              end
            else if hex then None
            else finish dp0 (underscores st) rest
        | EmptyString =>
            if hex then None else finish dp0 (underscores st) rest
        end
  end.

(** The binary64 value nearest to [m * 10^e], or to [m * 2^e] for a
    hexadecimal mantissa, ties to even: what [ParseFloat] documents. *)
Definition nearest64 (p : parsed) : spec_float :=
  let m := p_mantissa p in
  if m =? 0 then S754_zero (p_neg p)
  else if p_hex p then
    binary_normalize 53 1024 (if p_neg p then - m else m) (p_exp p) (p_neg p)
  else if 0 <=? p_exp p then
    binary_normalize 53 1024 ((if p_neg p then - m else m) * 10 ^ p_exp p) 0 (p_neg p)
  else
    SFdiv 53 1024 (S754_finite (p_neg p) (Z.to_pos m) 0)
      (S754_finite false (Z.to_pos (10 ^ (- p_exp p))) 0).

Definition syntaxError (fn s : string) : error := NumError fn s ErrSyntax.
Definition rangeError (fn s : string) : error := NumError fn s ErrRange.

(** [atof64(s)]: the result and the number of bytes read. *)
Definition atof64 (s : string) : result float * nat :=
  match special s with
  | Some (f, n) => (inr f, n)
  | None =>
      match readFloat s with
      | None => (inl (syntaxError "ParseFloat" s), O)
      | Some (p, n) =>
          match nearest64 p with
          | S754_infinity _ => (inl (rangeError "ParseFloat" s), n)
          | f => (inr (SF2Prim f), n)
          end
      end
  end.

(** [strconv.ParseFloat(s, 64)]: the whole of [s] must have been read.
    With a range error Go also returns the infinity; [main.go] drops it. *)
Definition ParseFloat (s : string) : result float :=
  let '(r, n) := atof64 s in
  if negb (n =? String.length s)%nat then
    match r with
    | inl (NumError _ _ (errorString "invalid syntax")) => r
    | _ => inl (syntaxError "ParseFloat" s)
    end
  else r.

End Strconv.

(** ** The rate parser *)

(** [parseRate(rateStr)] *)
Definition parseRate (rateStr : string) : result float :=
  let rateStr := Strings.Replace rateStr "," "." 1 in
  match Strconv.ParseFloat rateStr with
  | inl err => inl (wrapError "failed to parse rate: " err)
  | inr rate => inr rate
  end.

(** ** Package [time] *)

Module Time.

(** A [*time.Location], as [lookup] reads it: the offset east of UTC, in
    seconds, in force before the first transition, and the transitions in
    ascending order, each with the instant (in seconds since the Unix
    epoch) from which it holds and its offset.  The rule a zone file gives
    for the years after its table is taken as unfolded into transitions. *)
Record Location : Type := mkLocation {
  firstOffset : Z;
  transitions : list (Z * Z)
}.

(** [time.FixedZone(name, off)] *)
Definition FixedZone (off : Z) : Location := mkLocation off [].

(** The bounds [alpha] and [omega] of [lookup]: the least and the
    greatest [int64]. *)
Definition alpha : Z := - 2 ^ 63.
Definition omega : Z := 2 ^ 63 - 1.

(** The search of [lookup] for the last transition not after [sec];
    [offset] and [start] are those of the zone reached so far. *)
Fixpoint lookupFrom (tx : list (Z * Z)) (sec offset start : Z) : Z * Z * Z :=
  match tx with
  | [] => (offset, start, omega)
  | (when, offset') :: rest =>
      if sec <? when then (offset, start, when)
      else lookupFrom rest sec offset' when
  end.

(** [l.lookup(sec)]: the offset in force at the instant [sec], and the
    instants between which it holds, [start] included and [end] not. *)
Definition lookup (l : Location) (sec : Z) : Z * Z * Z :=
  lookupFrom (transitions l) sec (firstOffset l) alpha.

(** The offset of [l] at the instant [sec]. *)
Definition zoneOffset (l : Location) (sec : Z) : Z := (lookup l sec).1.1.

(** A [time.Time]: the instant, in nanoseconds since the Unix epoch, and
    the location. *)
Record Time : Type := MkTime {
  unixNano : Z;
  loc : Location
}.

(** The instant [unixNano] in a zone of fixed offset [off]. *)
Definition mkTime (unixNano off : Z) : Time := MkTime unixNano (FixedZone off).

(** [t.unixSec()] *)
Definition unixSec (t : Time) : Z := unixNano t / 1000000000.

(** The offset of the location of [t] at the instant of [t]. *)
Definition offset (t : Time) : Z := zoneOffset (loc t) (unixSec t).

(** A [time.Duration] is a count of nanoseconds. *)
Definition Second : Z := 1000000000.
Definition Hour : Z := 3600 * Second.

(** [t.After(u)] *)
Definition After (t u : Time) : bool := unixNano u <? unixNano t.

(** [t.Add(d)] *)
Definition Add (t : Time) (d : Z) : Time := MkTime (unixNano t + d) (loc t).

Definition secondsPerDay : Z := 86400.
Definition daysPer400Years : Z := 365 * 400 + 97.
Definition daysPer100Years : Z := 365 * 100 + 24.
Definition daysPer4Years : Z := 365 * 4 + 1.

(** Days from January 1 of year 1 to the Unix epoch. *)
Definition unixToInternalDays : Z := 1969 * 365 + 1969 / 4 - 1969 / 100 + 1969 / 400.

Definition isLeap (year : Z) : bool :=
  (year mod 4 =? 0) && (negb (year mod 100 =? 0) || (year mod 400 =? 0)).

(** [daysBefore[m]]: the days of a non-leap year before month [m + 1]. *)
Definition daysBefore (m : Z) : Z :=
  match m with
  | 0 => 0 | 1 => 31 | 2 => 59 | 3 => 90 | 4 => 120 | 5 => 151 | 6 => 181
  | 7 => 212 | 8 => 243 | 9 => 273 | 10 => 304 | 11 => 334 | _ => 365
  end.

(** [daysSinceEpoch(year)]: the days from the absolute epoch to January 1
    of [year], counted in cycles of 400, 100, 4 and 1 years.  The absolute
    epoch is moved to January 1 of year 1, a whole number of 400-year
    cycles after Go's. *)
Definition daysSinceEpoch (year : Z) : Z :=
  let y := year - 1 in
  let n400 := y / 400 in
  let y := y - 400 * n400 in
  let d := daysPer400Years * n400 in
  let n100 := y / 100 in
  let y := y - 100 * n100 in
  let d := d + daysPer100Years * n100 in
  let n4 := y / 4 in
  let y := y - 4 * n4 in
  let d := d + daysPer4Years * n4 in
  d + 365 * y.

(** [norm(hi, lo, base)] *)
Definition norm (hi lo base : Z) : Z * Z := (hi + lo / base, lo mod base).

(** [time.Date(year, month, day, hour, min, sec, nsec, loc)]: the wall
    clock is first read as if it were UTC, the offset in force at that
    instant is looked up, and looked up again at the instant it gives
    when that one lies outside the zone found. *)
Definition Date (year month day hour min sec nsec : Z) (l : Location) : Time :=
  let '(year, m) := norm year (month - 1) 12 in
  let month := m + 1 in
  let '(sec, nsec) := norm sec nsec 1000000000 in
  let '(min, sec) := norm min sec 60 in
  let '(hour, min) := norm hour min 60 in
  let '(day, hour) := norm day hour 24 in
  let d := daysSinceEpoch year in
  let d := d + daysBefore (month - 1) in
  let d := if isLeap year && (3 <=? month) then d + 1 else d in
  let d := d + (day - 1) in
  let abs := d * secondsPerDay + (hour * 3600 + min * 60 + sec) in
  let unix := abs - unixToInternalDays * secondsPerDay in
  let '(offset, start, end_) := lookup l unix in
  let unix :=
    if negb (offset =? 0) then
      let utc := unix - offset in
      let offset :=
        if (utc <? start) || (end_ <=? utc) then zoneOffset l utc else offset in
      unix - offset
    else unix in
  MkTime (unix * 1000000000 + nsec) l.

(** [t.abs()]: the seconds since the absolute epoch, in the location. *)
Definition abs (t : Time) : Z :=
  unixSec t + offset t + unixToInternalDays * secondsPerDay.

(** A civil date. *)
Record civil : Type := Civil { year : Z; month : Z; day : Z }.

(** [absDate]: the year and the day of the year of a day number, by
    cycles of 400, 100, 4 and 1 years. *)
Definition yearDay (d : Z) : Z * Z :=
  let n := d / daysPer400Years in
  let y := 400 * n in
  let d := d - daysPer400Years * n in
  let n := d / daysPer100Years in
  let n := n - Z.shiftr n 2 in
  let y := y + 100 * n in
  let d := d - daysPer100Years * n in
  let n := d / daysPer4Years in
  let y := y + 4 * n in
  let d := d - daysPer4Years * n in
  let n := d / 365 in
  let n := n - Z.shiftr n 2 in
  let y := y + n in
  let d := d - 365 * n in
  (y + 1, d).

(** [absDate]: the month and the day of the month of a day of the year. *)
Definition monthDay (leap : bool) (yday : Z) : Z * Z :=
  if leap && (yday =? 31 + 29 - 1) then (2, 29)
  else
    let day := if leap && (31 + 29 - 1 <? yday) then yday - 1 else yday in
    let month := day / 31 in
    let end_ := daysBefore (month + 1) in
    if end_ <=? day then (month + 1 + 1, day - end_ + 1)
    else (month + 1, day - daysBefore month + 1).

(** The civil date of a day number. *)
Definition civilOfDays (d : Z) : civil :=
  let '(y, yday) := yearDay d in
  let '(m, dd) := monthDay (isLeap y) yday in
  Civil y m dd.

(** The day number of a civil date: the days [Date] counts. *)
Definition daysOfCivil (c : civil) : Z :=
  daysSinceEpoch (year c) + daysBefore (month c - 1)
  + (if isLeap (year c) && (3 <=? month c) then 1 else 0) + (day c - 1).

(** The day number of [t] in its location. *)
Definition dayNumber (t : Time) : Z := abs t / secondsPerDay.

(** [t.Date()] *)
Definition dateOf (t : Time) : civil := civilOfDays (dayNumber t).

(** [t.Clock()] *)
Definition Clock (t : Time) : Z * Z * Z :=
  let sec := abs t mod secondsPerDay in
  (sec / 3600, (sec mod 3600) / 60, sec mod 60).

(** [t.AddDate(years, months, days)] *)
Definition AddDate (t : Time) (years months days : Z) : Time :=
  let c := dateOf t in
  let '(hour, min, sec) := Clock t in
  Date (year c + years) (month c + months) (day c + days) hour min sec
    (unixNano t mod 1000000000) (loc t).

(** The location of [t] keeps the offset it has at [t] over the eight
    days that end at [t], and that offset is of a day at most. *)
Definition steadyOffset (t : Time) : Prop :=
  - 86400 ≤ offset t ≤ 86400
  ∧ ∀ sec, unixSec t - 8 * 86400 ≤ sec ≤ unixSec t →
           zoneOffset (loc t) sec = offset t.

(** [appendInt(b, x, width)]: [x] in decimal, padded with zeros to
    [width] digits, after a minus sign if negative. *)
Definition appendInt (x : Z) (width : nat) : string :=
  let digits := pretty (Z.abs x) in
  (if x <? 0 then "-" else "") +:+
  String.concat "" (replicate (width - String.length digits) "0") +:+ digits.

(** [t.Format(layout)] for a layout made of the day [02], the month [01],
    the year [2006] and separators that are no part of a reference value
    (as in [02.01.2006]). *)
Fixpoint formatCivil (c : civil) (layout : string) : string :=
  match layout with
  | String "2" (String "0" (String "0" (String "6" rest))) =>
      appendInt (year c) 4 +:+ formatCivil c rest
  | String "0" (String "1" rest) => appendInt (month c) 2 +:+ formatCivil c rest
  | String "0" (String "2" rest) => appendInt (day c) 2 +:+ formatCivil c rest
  | String ch rest => String ch (formatCivil c rest)
  | EmptyString => EmptyString
  end.

Definition Format (t : Time) (layout : string) : string :=
  formatCivil (dateOf t) layout.

End Time.

(** ** Package [fmt] *)

(** [fmt.Sprintf(format, args...)] for a format whose only verbs are [%s],
    as many as there are arguments. *)
Fixpoint Sprintf (format : string) (args : list string) : string :=
  match format with
  | String "%" (String "s" rest) =>
      match args with
      | a :: args' => a +:+ Sprintf rest args'
      | [] => "%!s(MISSING)" +:+ Sprintf rest []
      end
  | String ch rest => String ch (Sprintf rest args)
  | EmptyString => EmptyString
  end.

(** ** Constants and types of [main.go] *)

Definition dailyRatesURL : string := "https://www.cbr.ru/scripts/XML_daily.asp".
Definition dynamicRatesURL : string :=
  "https://www.cbr.ru/scripts/XML_dynamic.asp?date_req1=%s&date_req2=%s&VAL_NM_RQ=R01235".
Definition httpTimeout : Z := 5 * Time.Second.
Definition cacheExpiration : Z := 1 * Time.Hour.
Definition StatusOK : Z := 200.

Record Record_ : Type := mkRecord {
  Record_Date : string;
  Record_Value : string
}.

Record Valute : Type := mkValute {
  CharCode : string;
  Valute_Value : string
}.

Record ValCurs : Type := mkValCurs {
  ValCurs_Date : string;
  Valutes : list Valute;
  Records : list Record_
}.

Record RateHistory : Type := mkRateHistory {
  RateHistory_Date : string;
  Rate : float
}.

(** ** The TTL cache *)

(** [Cache]: the two maps.  The stored values are of one type [V] (the
    [interface{}] of the source always holds a [*ValCurs]).  The mutex is
    left out: calls are modelled one after the other. *)
Record Cache (V : Type) : Type := mkCache {
  data : gmap string V;
  expiration : gmap string Time.Time
}.
Arguments mkCache {V} _ _.
Arguments data {V} _.
Arguments expiration {V} _.

Definition NewCache {V : Type} : Cache V := mkCache ∅ ∅.

(** [c.Get(key)], where [now] is what [time.Now()] returns.  The pair
    [(val, true)] is [Some val] and [(nil, false)] is [None], which makes
    the map read [val, exists := c.data[key]] the lookup [data c !! key]. *)
Definition Cache_Get {V : Type} (c : Cache V) (key : string) (now : Time.Time) : option V :=
  match expiration c !! key with
  | None => None
  | Some exp =>
      if Time.After now exp then None
      else data c !! key
  end.

(** [c.Set(key, value, expiration)], where [now] is what [time.Now()]
    returns. *)
Definition Cache_Set {V : Type} (c : Cache V) (key : string) (value : V)
    (ttl : Z) (now : Time.Time) : Cache V :=
  mkCache (<[key := value]> (data c)) (<[key := Time.Add now ttl]> (expiration c)).

(** ** The fetch pipeline *)

(** The [http.Client] of the service: its timeout, and the URLs of the
    requests [fetchXML] has handed to its [Do], oldest first.  What the
    client does with a request on the network (a redirect that it follows
    is a further request, to another URL) shows only in the answer
    [doResult] of the environment. *)
Record Client : Type := mkClient {
  Timeout : Z;
  sent : list string
}.

Record CurrencyService : Type := mkService {
  client : Client;
  cache : Cache ValCurs
}.

Definition NewCurrencyService : CurrencyService :=
  mkService (mkClient httpTimeout []) NewCache.

(** An [http.Response]: its status code, and what [decoder.Decode] makes
    of its body (reading the body may itself fail or time out). *)
Record Response : Type := mkResponse {
  StatusCode : Z;
  Decode : result ValCurs
}.

(** What the environment does during one call of [fetchXML]: the clock
    read by [cache.Get], the error of [http.NewRequestWithContext] if any,
    the result of [client.Do], the clock read by [cache.Set]. *)
Record FetchIO : Type := mkFetchIO {
  nowGet : Time.Time;
  newRequestErr : option error;
  doResult : result Response;
  nowSet : Time.Time
}.

(** [client.Do(req)], for the request [req] that [fetchXML] has built from
    [url]: the call is recorded. *)
Definition Do (c : Client) (url : string) : Client :=
  mkClient (Timeout c) (sent c ++ [url]).

(** [s.fetchXML(url)] *)
Definition fetchXML (s : CurrencyService) (url : string) (io : FetchIO)
    : result ValCurs * CurrencyService :=
  match Cache_Get (cache s) url (nowGet io) with
  | Some cachedData => (inr cachedData, s)
  | None =>
      match newRequestErr io with
      | Some err => (inl (wrapError "failed to create request: " err), s)
      | None =>
          let s := mkService (Do (client s) url) (cache s) in
          match doResult io with
          | inl err => (inl (wrapError "failed to fetch data: " err), s)
          | inr resp =>
              if negb (StatusCode resp =? StatusOK) then
                (inl (errorString ("unexpected status code: " +:+ pretty (StatusCode resp))), s)
              else
                match Decode resp with
                | inl err => (inl (wrapError "failed to parse XML: " err), s)
                | inr valCurs =>
                    (inr valCurs,
                     mkService (client s)
                       (Cache_Set (cache s) url valCurs cacheExpiration (nowSet io)))
                end
          end
      end
  end.

(** ** The currency service *)

(** [s.GetDailyRates()] *)
Definition GetDailyRates (s : CurrencyService) (io : FetchIO)
    : result ValCurs * CurrencyService :=
  fetchXML s dailyRatesURL io.

(** The loop of [GetUsdRate] over [valCurs.Valutes], with the
    [errors.New] after it. *)
Fixpoint usdLoop (valutes : list Valute) : result float :=
  match valutes with
  | [] => inl (errorString "USD rate not found")
  | valute :: rest =>
      if String.eqb (CharCode valute) "USD" then parseRate (Valute_Value valute)
      else usdLoop rest
  end.

(** [s.GetUsdRate()] *)
Definition GetUsdRate (s : CurrencyService) (io : FetchIO)
    : result float * CurrencyService :=
  match GetDailyRates s io with
  | (inl err, s) => (inl err, s)
  | (inr valCurs, s) => (usdLoop (Valutes valCurs), s)
  end.

(** [s.GetCursDate()] *)
Definition GetCursDate (s : CurrencyService) (io : FetchIO)
    : result string * CurrencyService :=
  match GetDailyRates s io with
  | (inl err, s) => (inl err, s)
  | (inr valCurs, s) => (inr (ValCurs_Date valCurs), s)
  end.

(** The loop of [GetUsdRatesHistory] over [valCurs.Records]; [history]
    is the slice appended to (the nil slice is the empty list). *)
Fixpoint historyLoop (records : list Record_) (history : list RateHistory)
    : list RateHistory :=
  match records with
  | [] => history
  | record :: rest =>
      match parseRate (Record_Value record) with
      | inl _ => historyLoop rest history
      | inr rate =>
          historyLoop rest (history ++ [mkRateHistory (Record_Date record) rate])
      end
  end.

(** The URL [GetUsdRatesHistory] builds from [now]. *)
Definition historyURL (now : Time.Time) : string :=
  let startDate := Time.Format (Time.AddDate now 0 0 (-7)) "02.01.2006" in
  let endDate := Time.Format now "02.01.2006" in
  Sprintf dynamicRatesURL [startDate; endDate].

(** [s.GetUsdRatesHistory()], where [now] is what its [time.Now()]
    returns. *)
Definition GetUsdRatesHistory (s : CurrencyService) (now : Time.Time) (io : FetchIO)
    : result (list RateHistory) * CurrencyService :=
  let url := historyURL now in
  match fetchXML s url io with
  | (inl err, s) => (inl err, s)
  | (inr valCurs, s) => (inr (historyLoop (Records valCurs) []), s)
  end.

(** ** The date format [DD.MM.YYYY] *)

(** The decimal digit of the units of [n]. *)
Definition digitChar (n : Z) : ascii := ascii_of_N (Z.to_N (48 + n mod 10)).

(** A civil date written as [DD.MM.YYYY]: the day on two digits, a dot,
    the month on two digits, a dot, the year on four digits. *)
Definition DDMMYYYY (c : Time.civil) : string :=
  String (digitChar (Time.day c / 10)) (String (digitChar (Time.day c))
  (String "."
  (String (digitChar (Time.month c / 10)) (String (digitChar (Time.month c))
  (String "."
  (String (digitChar (Time.year c / 1000)) (String (digitChar (Time.year c / 100))
  (String (digitChar (Time.year c / 10)) (String (digitChar (Time.year c))
   EmptyString))))))))).

(** ** Histories of the cache *)

(** One call [c.Set(key, value, ttl)] and the clock it read. *)
Record SetCall (V : Type) : Type := mkSetCall {
  call_key : string;
  call_value : V;
  call_ttl : Z;
  call_now : Time.Time
}.
Arguments mkSetCall {V} _ _ _ _.
Arguments call_key {V} _.
Arguments call_value {V} _.
Arguments call_ttl {V} _.
Arguments call_now {V} _.

(** The cache [NewCache()] returns, after the given calls of [Set]. *)
Definition runSets {V : Type} (calls : list (SetCall V)) : Cache V :=
  foldl (λ c x, Cache_Set c (call_key x) (call_value x) (call_ttl x) (call_now x))
    NewCache calls.

(** ** The bytes of a number *)

(** The bytes that can occur in a string [strconv.ParseFloat] accepts:
    the decimal digits, the ASCII letters, the two signs, the dot and the
    underscore. *)
Definition floatByte (c : ascii) : bool :=
  Strconv.isDigit c
  || ((97 <=? Strconv.lower c) && (Strconv.lower c <=? 122))
  || (Strconv.code c =? 43) || (Strconv.code c =? 45)
  || (Strconv.code c =? 46) || (Strconv.code c =? 95).

Fixpoint allFloatBytes (s : string) : bool :=
  match s with
  | EmptyString => true
  | String c s' => floatByte c && allFloatBytes s'
  end.

(** ** Histories of the service *)

(** The service [NewCurrencyService()] returns, after the given calls of
    [fetchXML], each with its URL and what the environment did. *)
Definition runFetches (calls : list (string * FetchIO)) : CurrencyService :=
  foldl (λ s call, (fetchXML s call.1 call.2).2) NewCurrencyService calls.

(** ** The routes *)

(** A line written by [log.Printf(format, err)]: the text of the format
    before its [%v], and the error printed there. *)
Record LogLine : Type := mkLogLine {
  log_text : string;
  log_err : error
}.

(** *** Package [encoding/json], on a [[]RateHistory] *)

Module Json.




End Json.

(** What a handler of [setupRoutes] hands to fiber.  [Render name course
    date] is [c.Render(name, fiber.Map{"course": course, "date": date})];
    what the template engine makes of it is not modelled.  [JSON history]
    is the answer written by a [c.JSON(history)] that has encoded
    [history].  [StatusJSON status err] is
    [c.Status(status).JSON(fiber.Map{"error": err.Error()})].
    [ReturnError err] is a handler that returns [err] without having
    written an answer: [main] configures no error handler, so that fiber
    answers with the status 500 and the message of [err]. *)
Inductive Reply : Type :=
  | Render (name : string) (course : float) (date : string)
  | JSON (history : list RateHistory)
  | StatusJSON (status : Z) (err : error)
  | ReturnError (err : error).



(** The handler of [GET /]: [io1] is the environment of the call of
    [GetUsdRate], [io2] that of [GetCursDate]. *)
Definition indexHandler (service : CurrencyService) (io1 io2 : FetchIO)
    : Reply * list LogLine * CurrencyService :=
  let '(r1, service) := GetUsdRate service io1 in
  let '(course, log1) :=
    match r1 with
    | inl err => (0%float, [mkLogLine "Error getting USD rate: " err])
    | inr course => (course, [])
    end in
  let '(r2, service) := GetCursDate service io2 in
  let '(date, log2) :=
    match r2 with
    | inl err => ("", [mkLogLine "Error getting rate date: " err])
    | inr date => (date, [])
    end in
  (Render "index" course date, (log1 ++ log2)%list, service).


(** * Properties *)

(** Division and remainder by constants, for [lia]. *)
Ltac dlia := Z.to_euclidean_division_equations; lia.

(** ** Strings *)

Lemma append_nil (b : string) : "" +:+ b = b.
Proof. reflexivity. Qed.

Lemma append_cons (c : ascii) (a b : string) : String c a +:+ b = String c (a +:+ b).
Proof. reflexivity. Qed.

Lemma append_nil_r (s : string) : s +:+ "" = s.
Proof. induction s as [|c s IH]; [done|]. by rewrite append_cons, IH. Qed.

(** ** The calendar of package [time] *)

Section TimeFacts.
Import Time.

(** Known dates: the epochs, leap days, the centuries. *)
Example civilOfDays_known :
  civilOfDays 0 = Civil 1 1 1
  ∧ civilOfDays unixToInternalDays = Civil 1970 1 1
  ∧ civilOfDays (unixToInternalDays + 11016) = Civil 2000 2 29
  ∧ civilOfDays (unixToInternalDays + 11017) = Civil 2000 3 1
  ∧ civilOfDays (unixToInternalDays - 25509) = Civil 1900 2 28
  ∧ civilOfDays (unixToInternalDays - 25508) = Civil 1900 3 1
  ∧ civilOfDays (unixToInternalDays + 19782) = Civil 2024 2 29
  ∧ civilOfDays (unixToInternalDays + 20088) = Civil 2024 12 31
  ∧ civilOfDays 3652058 = Civil 9999 12 31
  ∧ daysOfCivil (Civil 2024 3 1) = unixToInternalDays + 19783
  ∧ daysOfCivil (Civil 2024 3 (-6)) = daysOfCivil (Civil 2024 2 23).
Proof. vm_compute. repeat split. Qed.

Lemma shiftr_2 (n : Z) : Z.shiftr n 2 = n / 4.
Proof. by rewrite Z.shiftr_div_pow2. Qed.

Lemma yearDay_spec (d : Z) :
  daysSinceEpoch (yearDay d).1 + (yearDay d).2 = d
  ∧ 0 ≤ (yearDay d).2 < (if isLeap (yearDay d).1 then 366 else 365).
Proof.
  unfold yearDay, daysSinceEpoch, isLeap, daysPer400Years, daysPer100Years, daysPer4Years.
  cbn [fst snd]. rewrite !shiftr_2.
  change (365 * 400 + 97) with 146097. change (365 * 100 + 24) with 36524.
  change (365 * 4 + 1) with 1461.
  set (n400 := d / 146097).
  set (r1 := d - 146097 * n400).
  assert (0 ≤ r1 < 146097) as Hr1 by (subst r1 n400; dlia).
  set (q100 := r1 / 36524).
  assert (0 ≤ q100 ≤ 4) as Hq100 by (subst q100; dlia).
  set (n100 := q100 - q100 / 4).
  assert (0 ≤ n100 ≤ 3 ∧ (q100 = 4 → n100 = 3) ∧ (q100 < 4 → n100 = q100)) as Hn100
    by (subst n100; dlia).
  set (r2 := r1 - 36524 * n100).
  assert (0 ≤ r2 ≤ 36524 ∧ (r2 = 36524 → n100 = 3)) as Hr2 by (subst r2 q100; dlia).
  set (n4 := r2 / 1461).
  assert (0 ≤ n4 ≤ 24) as Hn4 by (subst n4; dlia).
  set (r3 := r2 - 1461 * n4).
  assert (0 ≤ r3 ≤ 1460) as Hr3 by (subst r3 n4; dlia).
  set (q1 := r3 / 365).
  assert (0 ≤ q1 ≤ 4) as Hq1 by (subst q1; dlia).
  set (n1 := q1 - q1 / 4).
  assert (0 ≤ n1 ≤ 3 ∧ (q1 = 4 → n1 = 3) ∧ (q1 < 4 → n1 = q1)) as Hn1
    by (subst n1; dlia).
  set (yday := r3 - 365 * n1).
  assert (0 ≤ yday ≤ 365 ∧ (yday = 365 → n1 = 3 ∧ r3 = 1460)) as Hyday
    by (subst yday q1; dlia).
  replace (400 * n400 + 100 * n100 + 4 * n4 + n1 + 1 - 1)
    with (400 * n400 + (100 * n100 + 4 * n4 + n1)) by lia.
  set (y := 400 * n400 + (100 * n100 + 4 * n4 + n1)).
  assert (y / 400 = n400) as -> by (subst y; dlia).
  replace (y - 400 * n400) with (100 * n100 + (4 * n4 + n1)) by (subst y; lia).
  assert ((100 * n100 + (4 * n4 + n1)) / 100 = n100) as -> by dlia.
  replace (100 * n100 + (4 * n4 + n1) - 100 * n100) with (4 * n4 + n1) by lia.
  assert ((4 * n4 + n1) / 4 = n4) as -> by dlia.
  split; [subst yday r3 r2 r1; lia|].
  split; [lia|].
  destruct Hyday as [Hyday Hlast].
  destruct (decide (yday = 365)) as [Heq|Hne].
  - destruct (Hlast Heq) as [Hn1' Hr3'].
    assert (n4 = 24 → n100 = 3) as Hcent by (subst r3; dlia).
    assert ((400 * n400 + 100 * n100 + 4 * n4 + n1 + 1) mod 4 = 0) as -> by dlia.
    destruct (decide (n4 = 24)) as [H24|H24].
    + assert ((400 * n400 + 100 * n100 + 4 * n4 + n1 + 1) mod 400 = 0) as ->
        by (specialize (Hcent H24); dlia).
      rewrite orb_true_r. simpl. lia.
    + assert ((400 * n400 + 100 * n100 + 4 * n4 + n1 + 1) mod 100 ≠ 0) as Hm by dlia.
      apply Z.eqb_neq in Hm. rewrite Hm. simpl. lia.
  - destruct (_ && _); lia.
Qed.

Lemma monthDay_spec (leap : bool) (yday : Z) :
  0 ≤ yday < (if leap then 366 else 365) →
  1 ≤ (monthDay leap yday).1 ≤ 12
  ∧ 1 ≤ (monthDay leap yday).2 ≤ 31
  ∧ daysBefore ((monthDay leap yday).1 - 1)
    + (if leap && (3 <=? (monthDay leap yday).1) then 1 else 0)
    + ((monthDay leap yday).2 - 1) = yday.
Proof.
  intros Hy.
  assert (yday ∈ seqZ 0 (if leap then 366 else 365)) as Hin
    by (apply elem_of_seqZ; lia).
  clear Hy. revert yday Hin. apply Forall_forall.
  destruct leap; apply (bool_decide_unpack _); vm_compute; exact I.
Qed.

Lemma civil_roundtrip (d : Z) :
  daysOfCivil (civilOfDays d) = d
  ∧ 1 ≤ month (civilOfDays d) ≤ 12
  ∧ 1 ≤ day (civilOfDays d) ≤ 31.
Proof.
  unfold civilOfDays, daysOfCivil.
  destruct (yearDay_spec d) as [Hd Hy].
  destruct (yearDay d) as [y yday]. cbn [fst snd] in *.
  destruct (monthDay_spec (isLeap y) yday Hy) as (Hm & Hdd & Hsum).
  destruct (monthDay (isLeap y) yday) as [m dd]. cbn [fst snd year month day] in *.
  repeat split; lia.
Qed.

Lemma norm_small (hi lo base : Z) : 0 ≤ lo < base → norm hi lo base = (hi, lo).
Proof.
  intros H. unfold norm. rewrite Z.div_small, Z.mod_small by lia.
  by rewrite Z.add_0_r.
Qed.

(** [Date], when the location has the offset [off] both at the wall
    clock read as UTC and at the instant that offset gives: the result is
    that instant. *)
Lemma Date_steady (y m d h mi s ns : Z) (l : Location) (off : Z) :
  1 ≤ m ≤ 12 → 0 ≤ h < 24 → 0 ≤ mi < 60 → 0 ≤ s < 60 → 0 ≤ ns < 1000000000 →
  zoneOffset l ((daysOfCivil (Civil y m d) - unixToInternalDays) * 86400
                + (h * 3600 + mi * 60 + s)) = off →
  zoneOffset l ((daysOfCivil (Civil y m d) - unixToInternalDays) * 86400
                + (h * 3600 + mi * 60 + s) - off) = off →
  Date y m d h mi s ns l =
  MkTime (((daysOfCivil (Civil y m d) - unixToInternalDays) * 86400
           + (h * 3600 + mi * 60 + s) - off) * 1000000000 + ns) l.
Proof.
  intros Hm Hh Hmi Hs Hns. unfold Date.
  rewrite (norm_small y (m - 1) 12) by lia.
  rewrite (norm_small s ns 1000000000) by lia.
  rewrite (norm_small mi s 60) by lia.
  rewrite (norm_small h mi 60) by lia.
  rewrite (norm_small d h 24) by lia.
  replace (m - 1 + 1) with m by lia.
  unfold daysOfCivil. cbn [year month day]. unfold secondsPerDay.
  set (unix0 := (daysSinceEpoch y + daysBefore (m - 1)
                 + (if isLeap y && (3 <=? m) then 1 else 0) + (d - 1)
                 - unixToInternalDays) * 86400 + (h * 3600 + mi * 60 + s)).
  replace ((if isLeap y && (3 <=? m)
            then daysSinceEpoch y + daysBefore (m - 1) + 1
            else daysSinceEpoch y + daysBefore (m - 1)) + (d - 1))
    with (daysSinceEpoch y + daysBefore (m - 1)
          + (if isLeap y && (3 <=? m) then 1 else 0) + (d - 1))
    by (destruct (isLeap y && (3 <=? m)); lia).
  replace ((daysSinceEpoch y + daysBefore (m - 1)
            + (if isLeap y && (3 <=? m) then 1 else 0) + (d - 1)) * 86400
           + (h * 3600 + mi * 60 + s) - unixToInternalDays * 86400)
    with unix0 by (subst unix0; lia).
  unfold zoneOffset at 1. intros Ho1 Ho2.
  destruct (lookup l unix0) as [[o start] end_]. cbn [fst] in Ho1. subst o.
  destruct (Z.eqb_spec off 0) as [->|Hne]; cbn [negb].
  - by rewrite Z.sub_0_r.
  - rewrite Ho2. by destruct ((unix0 - off <? start) || (end_ <=? unix0 - off)).
Qed.

Lemma Clock_range (t : Time) :
  0 ≤ (Clock t).1.1 < 24 ∧ 0 ≤ (Clock t).1.2 < 60 ∧ 0 ≤ (Clock t).2 < 60.
Proof.
  unfold Clock, secondsPerDay. cbn [fst snd].
  generalize (abs t). intros a. dlia.
Qed.

Lemma Clock_seconds (t : Time) :
  (Clock t).1.1 * 3600 + (Clock t).1.2 * 60 + (Clock t).2 = abs t mod 86400.
Proof.
  unfold Clock, secondsPerDay. cbn [fst snd].
  generalize (abs t). intros a. dlia.
Qed.

(** Where the offset is steady, [AddDate(0, 0, -7)] is the instant seven
    times 24 hours earlier. *)
Lemma AddDate_week (t : Time) :
  steadyOffset t →
  AddDate t 0 0 (-7) = MkTime (unixNano t - 7 * 86400 * 1000000000) (loc t).
Proof.
  intros [Hoff Hsteady].
  pose proof (civil_roundtrip (dayNumber t)) as (Hround & Hm & _).
  pose proof (Clock_range t) as (Hh & Hmi & Hs).
  pose proof (Clock_seconds t) as Hsec.
  unfold AddDate, dateOf.
  destruct (Clock t) as [[h mi] s]. cbn [fst snd] in Hh, Hmi, Hs, Hsec.
  revert Hround Hm. destruct (civilOfDays (dayNumber t)) as [y m d].
  cbn [year month day]. intros Hround Hm. rewrite !Z.add_0_r.
  assert (daysOfCivil (Civil y m (d + -7)) = dayNumber t - 7) as Hdays.
  { rewrite <- Hround. unfold daysOfCivil. cbn [year month day]. lia. }
  assert ((daysOfCivil (Civil y m (d + -7)) - unixToInternalDays) * 86400
          + (h * 3600 + mi * 60 + s) = unixSec t + offset t - 7 * 86400) as Hunix.
  { rewrite Hdays, Hsec. unfold dayNumber, abs, secondsPerDay.
    generalize (unixSec t + offset t) unixToInternalDays. intros u k. dlia. }
  rewrite (Date_steady y m (d + -7) h mi s (unixNano t mod 1000000000) (loc t)
             (offset t)); try lia.
  - rewrite Hunix. f_equal. unfold unixSec. generalize (unixNano t). intros n. dlia.
  - generalize (unixNano t). intros n. dlia.
  - rewrite Hunix. apply Hsteady. lia.
  - rewrite Hunix. apply Hsteady. lia.
Qed.

(** Where the offset is steady, [AddDate(0, 0, -7)] moves the day number
    back by seven. *)
Lemma AddDate_days (t : Time) :
  steadyOffset t → dayNumber (AddDate t 0 0 (-7)) = dayNumber t - 7.
Proof.
  intros Hst. rewrite (AddDate_week t Hst). destruct Hst as [_ Hsteady].
  unfold dayNumber, abs, offset, unixSec. cbn [unixNano loc].
  replace ((unixNano t - 7 * 86400 * 1000000000) / 1000000000)
    with (unixNano t / 1000000000 - 7 * 86400)
    by (generalize (unixNano t); intros n; dlia).
  rewrite (Hsteady (unixNano t / 1000000000 - 7 * 86400))
    by (unfold unixSec; lia).
  unfold offset, unixSec, secondsPerDay.
  generalize (zoneOffset (loc t) (unixNano t / 1000000000))
             (unixNano t / 1000000000) unixToInternalDays.
  intros o u k. dlia.
Qed.

Lemma dateOf_AddDate (t : Time) :
  steadyOffset t → dateOf (AddDate t 0 0 (-7)) = civilOfDays (dayNumber t - 7).
Proof. intros Hst. unfold dateOf. by rewrite AddDate_days. Qed.

(** A zone of fixed offset is steady. *)
Lemma steadyOffset_fixed (n off : Z) :
  - 86400 ≤ off ≤ 86400 → steadyOffset (mkTime n off).
Proof. intros Hoff. split; [exact Hoff|]. by intros sec _. Qed.

Lemma pretty_N_char_digitChar (n : N) :
  pretty_N_char (n mod 10) = digitChar (Z.of_N n).
Proof.
  unfold digitChar.
  replace (Z.of_N n mod 10) with (Z.of_N (n mod 10)%N)
    by (rewrite N2Z.inj_mod; reflexivity).
  assert (n mod 10 < 10)%N as Hlt by (apply N.mod_lt; lia).
  generalize dependent (n mod 10)%N. intros m Hm.
  assert (m = 0 ∨ m = 1 ∨ m = 2 ∨ m = 3 ∨ m = 4 ∨ m = 5 ∨ m = 6 ∨ m = 7 ∨ m = 8
          ∨ m = 9)%N as Hcases by lia.
  repeat (destruct Hcases as [->|Hcases]; [reflexivity|]). by subst m.
Qed.

(** One step of the decimal rendering, on [Z]. *)
Lemma pretty_N_go_Z (x : Z) (s : string) :
  0 < x →
  pretty_N_go (Z.to_N x) s = pretty_N_go (Z.to_N (x / 10)) (String (digitChar x) s).
Proof.
  intros Hx. rewrite pretty_N_go_step by lia.
  rewrite pretty_N_char_digitChar, Z2N.id by lia.
  do 2 f_equal. rewrite Z2N.inj_div by lia. reflexivity.
Qed.

Lemma pretty_Z_pos (x : Z) : 0 < x → pretty x = pretty_N_go (Z.to_N x) "".
Proof. by destruct x. Qed.

Lemma digitChar_0 : digitChar 0 = "0"%char.
Proof. reflexivity. Qed.

Lemma appendInt_2 (x : Z) :
  0 ≤ x ≤ 99 → appendInt x 2 = String (digitChar (x / 10)) (String (digitChar x) "").
Proof.
  intros Hx. unfold appendInt.
  replace (x <? 0) with false by (symmetry; apply Z.ltb_ge; lia).
  rewrite Z.abs_eq by lia.
  destruct (decide (x = 0)) as [->|Hne]; [reflexivity|].
  rewrite pretty_Z_pos, pretty_N_go_Z by lia.
  destruct (decide (x < 10)) as [Hlt|Hge].
  - replace (x / 10) with 0 by dlia. reflexivity.
  - rewrite pretty_N_go_Z by dlia.
    replace (x / 10 / 10) with 0 by dlia. reflexivity.
Qed.

Lemma appendInt_4 (x : Z) :
  0 ≤ x ≤ 9999 →
  appendInt x 4 =
  String (digitChar (x / 1000)) (String (digitChar (x / 100))
    (String (digitChar (x / 10)) (String (digitChar x) ""))).
Proof.
  intros Hx. unfold appendInt.
  replace (x <? 0) with false by (symmetry; apply Z.ltb_ge; lia).
  rewrite Z.abs_eq by lia.
  destruct (decide (x = 0)) as [->|Hne]; [reflexivity|].
  rewrite pretty_Z_pos, pretty_N_go_Z by lia.
  destruct (decide (x < 10)) as [H1|H1].
  { replace (x / 1000) with 0 by dlia. replace (x / 100) with 0 by dlia.
    replace (x / 10) with 0 by dlia. reflexivity. }
  rewrite pretty_N_go_Z by dlia.
  destruct (decide (x < 100)) as [H2|H2].
  { replace (x / 1000) with 0 by dlia. replace (x / 100) with 0 by dlia.
    replace (x / 10 / 10) with 0 by dlia. reflexivity. }
  rewrite pretty_N_go_Z by dlia.
  replace (x / 10 / 10) with (x / 100) by dlia.
  destruct (decide (x < 1000)) as [H3|H3].
  { replace (x / 1000) with 0 by dlia. replace (x / 100 / 10) with 0 by dlia.
    reflexivity. }
  rewrite pretty_N_go_Z by dlia.
  replace (x / 100 / 10) with (x / 1000) by dlia.
  replace (x / 1000 / 10) with 0 by dlia. reflexivity.
Qed.

Lemma year_range (d : Z) :
  0 ≤ d < 3652059 → 1 ≤ year (civilOfDays d) ≤ 9999.
Proof.
  intros Hd. unfold civilOfDays.
  destruct (yearDay d) as [y yday] eqn:Hy.
  destruct (monthDay (isLeap y) yday) as [m dd]. cbn [year].
  revert Hy. unfold yearDay, daysPer400Years, daysPer100Years, daysPer4Years.
  rewrite !shiftr_2. intros [= <- _]. dlia.
Qed.

Lemma formatCivil_DDMMYYYY (d : Z) :
  0 ≤ d < 3652059 →
  formatCivil (civilOfDays d) "02.01.2006" = DDMMYYYY (civilOfDays d).
Proof.
  intros Hd. pose proof (year_range d Hd) as Hy.
  destruct (civil_roundtrip d) as (_ & Hm & Hdd).
  destruct (civilOfDays d) as [y m dd]. cbn [year month day] in *.
  unfold DDMMYYYY. cbn [formatCivil year month day].
  rewrite appendInt_2, appendInt_2, appendInt_4 by lia.
  reflexivity.
Qed.
End TimeFacts.


(** ** The TTL cache *)

Section CacheFacts.
Context {V : Type}.
Implicit Types (c : Cache V) (key : string) (value : V) (now : Time.Time).

Lemma After_spec (t u : Time.Time) :
  Time.After t u = true ↔ Time.unixNano u < Time.unixNano t.
Proof. unfold Time.After. apply Z.ltb_lt. Qed.

Lemma After_false (t u : Time.Time) :
  Time.After t u = false ↔ Time.unixNano t ≤ Time.unixNano u.
Proof. unfold Time.After. rewrite Z.ltb_ge. reflexivity. Qed.

Lemma Cache_Get_Some c key now value :
  Cache_Get c key now = Some value ↔
  ∃ exp, expiration c !! key = Some exp
         ∧ Time.unixNano now ≤ Time.unixNano exp
         ∧ data c !! key = Some value.
Proof.
  unfold Cache_Get. split.
  - destruct (expiration c !! key) as [exp|] eqn:He; [|discriminate].
    destruct (Time.After now exp) eqn:Ha; [discriminate|].
    intros Hd. exists exp. by rewrite <- After_false.
  - intros (exp & -> & Hle & Hd).
    apply After_false in Hle. by rewrite Hle.
Qed.

Lemma Cache_Set_data c key value ttl now key' :
  data (Cache_Set c key value ttl now) !! key' =
  if decide (key = key') then Some value else data c !! key'.
Proof. unfold Cache_Set; simpl. apply lookup_insert. Qed.

Lemma Cache_Set_expiration c key value ttl now key' :
  expiration (Cache_Set c key value ttl now) !! key' =
  if decide (key = key') then Some (Time.Add now ttl) else expiration c !! key'.
Proof. unfold Cache_Set; simpl. apply lookup_insert. Qed.

End CacheFacts.

Section CacheHistory.
Context {V : Type}.
Implicit Types (calls : list (SetCall V)) (key : string).

Lemma runSets_snoc calls (x : SetCall V) :
  runSets (calls ++ [x]) =
  Cache_Set (runSets calls) (call_key x) (call_value x) (call_ttl x) (call_now x).
Proof. unfold runSets. by rewrite foldl_app. Qed.

(** A key is in both maps, or in neither, and is in them exactly when it
    has been set. *)
Lemma runSets_keys calls key :
  (key ∈ call_key <$> calls ↔ is_Some (expiration (runSets calls) !! key))
  ∧ (is_Some (expiration (runSets calls) !! key) ↔ is_Some (data (runSets calls) !! key)).
Proof.
  induction calls as [|x calls IH] using rev_ind.
  - cbn. rewrite !lookup_empty. split; split; try (intros []; discriminate).
    intros H. by apply elem_of_nil in H.
  - rewrite runSets_snoc, Cache_Set_expiration, Cache_Set_data, fmap_app, elem_of_app.
    destruct IH as [IH1 IH2]. cbn. rewrite list_elem_of_singleton.
    destruct (decide (call_key x = key)) as [->|Hne].
    + split; split; eauto.
    + rewrite <- IH1. split; [|by rewrite IH1]. split; [|tauto].
      intros [?|?]; [done|congruence].
Qed.

Lemma runSets_never_set calls key :
  key ∉ call_key <$> calls ↔ expiration (runSets calls) !! key = None.
Proof.
  rewrite (proj1 (runSets_keys calls key)), eq_None_not_Some. reflexivity.
Qed.

End CacheHistory.

(** C2, as amended: in a cache built by [NewCache] and calls of [Set],
    [Get(key)] finds nothing exactly when the key was never set or the
    current time is strictly after the stored expiration instant.  (At the
    expiration instant itself the entry is still found.) *)
Theorem Cache_Get_not_found {V : Type} (calls : list (SetCall V)) (key : string)
    (now : Time.Time) :
  Cache_Get (runSets calls) key now = None ↔
  key ∉ call_key <$> calls
  ∨ ∃ exp, expiration (runSets calls) !! key = Some exp
           ∧ Time.unixNano exp < Time.unixNano now.
Proof.
  rewrite runSets_never_set. unfold Cache_Get.
  destruct (expiration (runSets calls) !! key) as [exp|] eqn:He.
  - destruct (Time.After now exp) eqn:Ha.
    + apply After_spec in Ha. split; [|done]. intros _. right. eauto.
    + apply After_false in Ha. split.
      * intros Hd. exfalso.
        assert (is_Some (data (runSets calls) !! key)) as [v Hv].
        { apply (runSets_keys calls key). eauto. }
        congruence.
      * intros [?|(exp' & [= <-] & Hlt)]; [done|lia].
  - split; [by left|done].
Qed.

(** C2, as stated, fails: a key set at instant 100 with a TTL of 10 is
    still found when the clock reads 110, the expiration instant. *)
Lemma Cache_Get_at_expiration_found :
  let c := runSets [mkSetCall "k" 42 10 (Time.mkTime 100 0)] in
  let now := Time.mkTime 110 0 in
  ∃ exp, expiration c !! "k" = Some exp
         ∧ Time.unixNano exp ≤ Time.unixNano now
         ∧ Cache_Get c "k" now = Some 42.
Proof. exists (Time.mkTime 110 0). vm_compute. repeat split; discriminate. Qed.

(** C3: [Set(k, v, ttl)] stores [v] under [k] with the expiration instant
    [now + ttl], whatever was there before, leaves the other keys alone,
    and a [Get(k)] at the same clock reading, or at any later one up to
    the expiration instant, returns [(v, true)]. *)
Theorem Cache_Set_then_Get {V : Type} (c : Cache V) (k : string) (v : V) (ttl : Z)
    (now : Time.Time) :
  0 < ttl →
  let c' := Cache_Set c k v ttl now in
  data c' !! k = Some v
  ∧ (∃ expiresAt, expiration c' !! k = Some expiresAt
                  ∧ Time.unixNano expiresAt = Time.unixNano now + ttl)
  ∧ (∀ k', k' ≠ k → data c' !! k' = data c !! k'
                     ∧ expiration c' !! k' = expiration c !! k')
  ∧ Cache_Get c' k now = Some v
  ∧ (∀ now', Time.unixNano now ≤ Time.unixNano now' ≤ Time.unixNano now + ttl →
             Cache_Get c' k now' = Some v).
Proof.
  intros Httl c'. subst c'.
  assert (∀ now', Time.unixNano now' ≤ Time.unixNano now + ttl →
                  Cache_Get (Cache_Set c k v ttl now) k now' = Some v) as Hget.
  { intros now' Hle. apply Cache_Get_Some. exists (Time.Add now ttl).
    rewrite Cache_Set_expiration, Cache_Set_data, !decide_True by done. done. }
  repeat split.
  - rewrite Cache_Set_data. by rewrite decide_True.
  - exists (Time.Add now ttl). rewrite Cache_Set_expiration. by rewrite decide_True.
  - rewrite Cache_Set_data. by rewrite decide_False.
  - rewrite Cache_Set_expiration. by rewrite decide_False.
  - apply Hget. lia.
  - intros now' [_ Hle]. by apply Hget.
Qed.

Lemma Cache_Set_then_Get_witness :
  0 < 10
  ∧ Cache_Get (Cache_Set (runSets [mkSetCall "k" 1 5 (Time.mkTime 0 0)]) "k" 2 10
                 (Time.mkTime 100 0)) "k" (Time.mkTime 100 0) = Some 2.
Proof.
  split; [lia|].
  destruct (Cache_Set_then_Get (runSets [mkSetCall "k" 1 5 (Time.mkTime 0 0)]) "k" 2 10
              (Time.mkTime 100 0)) as (_ & _ & _ & H & _); [lia|exact H].
Defined.

(** ** The fetch pipeline *)

Lemma cacheExpiration_ns : cacheExpiration = 3600000000000.
Proof. vm_compute. reflexivity. Qed.

Lemma fetchXML_hit (s : CurrencyService) (url : string) (io : FetchIO) (doc : ValCurs) :
  Cache_Get (cache s) url (nowGet io) = Some doc →
  fetchXML s url io = (inr doc, s).
Proof. intros H. unfold fetchXML. by rewrite H. Qed.

(** A call that misses the cache and succeeds has sent one request, got
    the status 200 and a body that decodes, and has stored the document. *)
Lemma fetchXML_miss_success (s : CurrencyService) (url : string) (io : FetchIO)
    (doc : ValCurs) :
  Cache_Get (cache s) url (nowGet io) = None →
  (fetchXML s url io).1 = inr doc →
  newRequestErr io = None
  ∧ (∃ resp, doResult io = inr resp ∧ StatusCode resp = StatusOK ∧ Decode resp = inr doc)
  ∧ (fetchXML s url io).2 =
      mkService (Do (client s) url)
        (Cache_Set (cache s) url doc cacheExpiration (nowSet io)).
Proof.
  intros Hmiss. unfold fetchXML. rewrite Hmiss.
  destruct (newRequestErr io); [discriminate|].
  destruct (doResult io) as [err|resp]; [discriminate|].
  destruct (StatusCode resp =? StatusOK) eqn:Hs; simpl; [|discriminate].
  destruct (Decode resp) as [err|valCurs] eqn:Hd; [discriminate|].
  simpl. intros [= <-]. apply Z.eqb_eq in Hs. eauto 10.
Qed.

(** An error leaves the cache as it was. *)
Lemma fetchXML_error_cache (s s' : CurrencyService) (url : string) (io : FetchIO)
    (err : error) :
  fetchXML s url io = (inl err, s') → cache s' = cache s.
Proof.
  unfold fetchXML.
  destruct (Cache_Get (cache s) url (nowGet io)); [discriminate|].
  destruct (newRequestErr io); [by intros [= _ <-]|].
  destruct (doResult io) as [e|resp]; [by intros [= _ <-]|].
  destruct (negb (StatusCode resp =? StatusOK)); [by intros [= _ <-]|].
  destruct (Decode resp); [by intros [= _ <-]|discriminate].
Qed.


(** C1: when a call of [fetchXML(url)] misses the cache and succeeds, it
    has stored the document under [url] with the expiration instant one
    hour after the clock [Set] read; a second call whose clock is not
    after that instant returns the same document from the cache whatever
    the network would answer, and the two calls together have sent exactly
    one request. *)
Theorem fetchXML_twice_one_request (s : CurrencyService) (url : string)
    (io1 io2 : FetchIO) (doc : ValCurs) :
  Cache_Get (cache s) url (nowGet io1) = None →
  (fetchXML s url io1).1 = inr doc →
  Time.unixNano (nowGet io2) ≤ Time.unixNano (nowSet io1) + 3600 * 1000000000 →
  let s1 := (fetchXML s url io1).2 in
  data (cache s1) !! url = Some doc
  ∧ expiration (cache s1) !! url = Some (Time.Add (nowSet io1) cacheExpiration)
  ∧ fetchXML s1 url io2 = (inr doc, s1)
  ∧ sent (client s1) = (sent (client s) ++ [url])%list
  ∧ sent (client (fetchXML s1 url io2).2) = (sent (client s) ++ [url])%list.
Proof.
  intros Hmiss Hfetch Hwin s1.
  destruct (fetchXML_miss_success _ _ _ _ Hmiss Hfetch) as (_ & _ & Hs1).
  subst s1. rewrite Hs1. clear Hs1.
  assert (fetchXML
            (mkService (Do (client s) url)
               (Cache_Set (cache s) url doc cacheExpiration (nowSet io1))) url io2
          = (inr doc,
             mkService (Do (client s) url)
               (Cache_Set (cache s) url doc cacheExpiration (nowSet io1)))) as Hhit.
  { apply fetchXML_hit. cbn [cache]. apply Cache_Get_Some.
    exists (Time.Add (nowSet io1) cacheExpiration).
    rewrite Cache_Set_expiration, Cache_Set_data, !decide_True by done.
    repeat split. cbn [Time.Add Time.unixNano]. rewrite cacheExpiration_ns. lia. }
  rewrite Hhit. cbn [cache client snd Do sent].
  rewrite Cache_Set_expiration, Cache_Set_data, !decide_True by done.
  done.
Qed.

Lemma fetchXML_twice_one_request_witness :
  let doc := mkValCurs "02.03.2024" [mkValute "USD" "91,23"] [] in
  let io1 := mkFetchIO (Time.mkTime 0 0) None (inr (mkResponse 200 (inr doc)))
               (Time.mkTime 5 0) in
  let io2 := mkFetchIO (Time.mkTime (5 + 3600 * 1000000000) 0) None
               (inl (errorString "connection refused")) (Time.mkTime 0 0) in
  let s1 := (fetchXML NewCurrencyService dailyRatesURL io1).2 in
  (fetchXML s1 dailyRatesURL io2).1 = inr doc
  ∧ sent (client (fetchXML s1 dailyRatesURL io2).2) = [dailyRatesURL].
Proof.
  intros doc io1 io2 s1.
  destruct (fetchXML_twice_one_request NewCurrencyService dailyRatesURL io1 io2 doc)
    as (_ & _ & H1 & _ & H2).
  - vm_compute. reflexivity.
  - vm_compute. reflexivity.
  - vm_compute. discriminate.
  - split; [exact (f_equal fst H1)|exact H2].
Defined.

(** C4: a call of [fetchXML] that returns an error leaves both maps of
    the cache as they were, so that the cache differs after a call only
    if the call succeeded; and on a cache miss each failing stage (the
    construction of the request, its sending, a status other than 200, the
    decoding of the body) does return an error. *)
Theorem fetchXML_failure_keeps_cache (s : CurrencyService) (url : string) (io : FetchIO) :
  (∀ err, (fetchXML s url io).1 = inl err → cache (fetchXML s url io).2 = cache s)
  ∧ (cache (fetchXML s url io).2 ≠ cache s → ∃ doc, (fetchXML s url io).1 = inr doc)
  ∧ (Cache_Get (cache s) url (nowGet io) = None →
     (is_Some (newRequestErr io)
      ∨ (∃ err, doResult io = inl err)
      ∨ (∃ resp, doResult io = inr resp
                 ∧ (StatusCode resp ≠ StatusOK ∨ ∃ err, Decode resp = inl err))) →
     ∃ err, (fetchXML s url io).1 = inl err).
Proof.
  assert (∀ err, (fetchXML s url io).1 = inl err → cache (fetchXML s url io).2 = cache s)
    as Herr.
  { intros err H. destruct (fetchXML s url io) as [r s'] eqn:Hf. simpl in *. subst r.
    by apply fetchXML_error_cache in Hf. }
  split; [exact Herr|]. split.
  - intros Hne. destruct (fetchXML s url io).1 as [err|doc] eqn:Hr; [|eauto].
    exfalso. apply Hne. by eapply Herr.
  - intros Hmiss Hfail. unfold fetchXML. rewrite Hmiss.
    destruct (newRequestErr io) as [e|]; [simpl; eauto|].
    destruct Hfail as [[e [=]]|[[e ->]|(resp & -> & Hresp)]]; [simpl; eauto|].
    destruct (StatusCode resp =? StatusOK) eqn:Hs; simpl; [|eauto].
    apply Z.eqb_eq in Hs. destruct Hresp as [?|[e ->]]; [done|simpl; eauto].
Qed.

(** A failing fetch over an expired entry: the status is 500, the call
    returns an error, one request has been sent, and the old document and
    its expiration instant are still in the maps. *)
Example fetchXML_failure_keeps_expired_entry :
  let old := mkValCurs "01.03.2024" [mkValute "USD" "91,23"] [] in
  let s := mkService (mkClient httpTimeout [])
             (Cache_Set NewCache dailyRatesURL old cacheExpiration (Time.mkTime 0 0)) in
  let late := Time.mkTime (2 * cacheExpiration) 0 in
  let io := mkFetchIO late None (inr (mkResponse 500 (inl (errorString "EOF")))) late in
  Cache_Get (cache s) dailyRatesURL late = None
  ∧ (fetchXML s dailyRatesURL io).1 = inl (errorString "unexpected status code: 500")
  ∧ sent (client (fetchXML s dailyRatesURL io).2) = [dailyRatesURL]
  ∧ data (cache (fetchXML s dailyRatesURL io).2) !! dailyRatesURL = Some old
  ∧ expiration (cache (fetchXML s dailyRatesURL io).2) !! dailyRatesURL
    = Some (Time.mkTime cacheExpiration 0).
Proof. vm_compute. repeat split. Qed.

Lemma prefix_append (p s : string) : String.prefix p (p +:+ s) = true.
Proof.
  induction p as [|a p IH]; simpl; [by destruct s|].
  destruct (ascii_dec a a); [exact IH|done].
Qed.

(** C5, as amended: on a cache miss, once the request has been sent and
    answered, [fetchXML] fails whenever the status is not 200
    ([http.StatusOK]), whether or not it is another 2xx status, with an
    error whose message is [unexpected status code: ] followed by the
    status in decimal (a [FetchError] of the specification); with the
    status 200 it goes on to decode the body. *)
Theorem fetchXML_status_check (s : CurrencyService) (url : string) (io : FetchIO)
    (resp : Response) :
  Cache_Get (cache s) url (nowGet io) = None →
  newRequestErr io = None →
  doResult io = inr resp →
  (StatusCode resp ≠ 200 →
     (fetchXML s url io).1 =
       inl (errorString ("unexpected status code: " +:+ pretty (StatusCode resp)))
     ∧ kindOf (errorString ("unexpected status code: " +:+ pretty (StatusCode resp)))
       = Some FetchError)
  ∧ (StatusCode resp = 200 →
     (fetchXML s url io).1 =
       match Decode resp with
       | inl err => inl (wrapError "failed to parse XML: " err)
       | inr valCurs => inr valCurs
       end).
Proof.
  intros Hmiss Hreq Hdo. unfold fetchXML. rewrite Hmiss, Hreq, Hdo. split.
  - intros Hne. apply Z.eqb_neq in Hne. unfold StatusOK. rewrite Hne. simpl.
    split; [done|]. by rewrite prefix_append.
  - intros ->. simpl. by destruct (Decode resp).
Qed.

Lemma fetchXML_status_check_witness :
  let io := mkFetchIO (Time.mkTime 0 0) None
              (inr (mkResponse 404 (inl (errorString "EOF")))) (Time.mkTime 1 0) in
  (fetchXML NewCurrencyService dailyRatesURL io).1 =
    inl (errorString "unexpected status code: 404").
Proof.
  intros io.
  destruct (fetchXML_status_check NewCurrencyService dailyRatesURL io
              (mkResponse 404 (inl (errorString "EOF")))) as [H _].
  - vm_compute. reflexivity.
  - reflexivity.
  - reflexivity.
  - destruct H as [H _]; [discriminate|exact H].
Defined.

(** C5, as stated, fails: the status 204 is a 2xx status, and a response
    with it, whose body would decode, is refused at the status check. *)
Lemma fetchXML_status_204_refused :
  let doc := mkValCurs "02.03.2024" [mkValute "USD" "91,23"] [] in
  let io := mkFetchIO (Time.mkTime 0 0) None (inr (mkResponse 204 (inr doc)))
              (Time.mkTime 1 0) in
  200 ≤ 204 < 300
  ∧ Cache_Get (cache NewCurrencyService) dailyRatesURL (nowGet io) = None
  ∧ (fetchXML NewCurrencyService dailyRatesURL io).1 =
      inl (errorString "unexpected status code: 204").
Proof. split; [lia|]. split; vm_compute; reflexivity. Qed.

(** ** The rate parser *)

Lemma index_comma_app (a b : string) :
  Strings.Index a "," = None →
  Strings.Index (a +:+ "," +:+ b) "," = Some (String.length a).
Proof.
  unfold Strings.Index. induction a as [|c a IH].
  - intros _. rewrite append_nil, append_cons, append_nil.
    cbn -[ascii_dec]. destruct (ascii_dec ","%char ","%char); [by destruct b|done].
  - rewrite append_cons.
    cbn -[ascii_dec String.append]. destruct (ascii_dec ","%char c) as [e|Hc].
    + by destruct a.
    + destruct (String.index 0 "," a) eqn:Ha; [discriminate|].
      intros _. by rewrite IH.
Qed.

Lemma substring_app_l (a b : string) :
  String.substring 0 (String.length a) (a +:+ b) = a.
Proof.
  induction a as [|c a IH]; [by destruct b|].
  rewrite append_cons. cbn -[String.append]. by rewrite IH.
Qed.

Lemma substring_all (b : string) : String.substring 0 (String.length b) b = b.
Proof. induction b as [|c b IH]; simpl; [done|]. by rewrite IH. Qed.

Lemma substring_app_r (a b : string) (n m : nat) :
  String.substring (String.length a + n) m (a +:+ b) = String.substring n m b.
Proof.
  induction a as [|c a IH]; [done|].
  rewrite append_cons. cbn -[String.append]. exact IH.
Qed.

Lemma length_append (a b : string) :
  String.length (a +:+ b) = (String.length a + String.length b)%nat.
Proof.
  induction a as [|c a IH]; [done|].
  rewrite append_cons. cbn -[String.append]. by rewrite IH.
Qed.

(** The first comma becomes a dot. *)
Lemma Replace_first_comma (a b : string) :
  Strings.Index a "," = None →
  Strings.Replace (a +:+ "," +:+ b) "," "." 1 = a +:+ "." +:+ b.
Proof.
  intros Ha. unfold Strings.Replace.
  change (String.eqb "," "." || (1 =? 0)) with false.
  change (if 1 <? 0 then _ else Z.to_nat 1) with 1%nat.
  cbn -[String.append Strings.Index String.substring String.length Nat.sub].
  rewrite (index_comma_app a b Ha), substring_app_l. do 2 f_equal.
  rewrite (substring_app_r a ("," +:+ b) 1).
  rewrite length_append, length_append.
  change (String.length ",") with 1%nat.
  replace (String.length a + (1 + String.length b) - (String.length a + 1))%nat
    with (String.length b) by lia.
  rewrite append_cons, append_nil. cbn. apply substring_all.
Qed.

(** Without a comma nothing changes. *)
Lemma Replace_no_comma (s : string) :
  Strings.Index s "," = None → Strings.Replace s "," "." 1 = s.
Proof. intros Hs. unfold Strings.Replace. simpl. by rewrite Hs. Qed.

(** The model of [strconv.ParseFloat] on inputs of Go's own tests:
    rounding to nearest even, subnormal numbers, overflow, hexadecimal
    mantissas, underscores, infinities and NaN. *)
Example ParseFloat_known :
  Strconv.ParseFloat "1e23" = inr 1e23%float
  ∧ Strconv.ParseFloat "100000000000000016777215" = inr 1.0000000000000001e23%float
  ∧ Strconv.ParseFloat "100000000000000016777216" = inr 1.0000000000000003e23%float
  ∧ Strconv.ParseFloat "-0.1" = inr (-0.1)%float
  ∧ Strconv.ParseFloat "22.222222222222222" = inr 22.22222222222222%float
  ∧ Strconv.ParseFloat "2.2250738585072012e-308" = inr 2.2250738585072014e-308%float
  ∧ Strconv.ParseFloat "2.2250738585072011e-308" = inr 2.225073858507201e-308%float
  ∧ Strconv.ParseFloat "5e-324" = inr 5e-324%float
  ∧ Strconv.ParseFloat "3e-324" = inr 5e-324%float
  ∧ Strconv.ParseFloat "2e-324" = inr 0%float
  ∧ Strconv.ParseFloat "1.7976931348623157e308" = inr 1.7976931348623157e308%float
  ∧ Strconv.ParseFloat "1.797693134862315808e308"
    = inl (Strconv.rangeError "ParseFloat" "1.797693134862315808e308")
  ∧ Strconv.ParseFloat "0x1ep-1" = inr 15%float
  ∧ Strconv.ParseFloat "0x1fFe2.p0" = inr 131042%float
  ∧ Strconv.ParseFloat "0x1e2" = inl (Strconv.syntaxError "ParseFloat" "0x1e2")
  ∧ Strconv.ParseFloat "1p2" = inl (Strconv.syntaxError "ParseFloat" "1p2")
  ∧ Strconv.ParseFloat "1_23.50_0e+1_2" = inr 1.235e14%float
  ∧ Strconv.ParseFloat "1__23.5e+12" = inl (Strconv.syntaxError "ParseFloat" "1__23.5e+12")
  ∧ Strconv.ParseFloat "123.5e+12_" = inl (Strconv.syntaxError "ParseFloat" "123.5e+12_")
  ∧ Strconv.ParseFloat "0x_1_2.3_4_5p+1_2" = inr 74565%float
  ∧ Strconv.ParseFloat "+INF" = inr infinity
  ∧ Strconv.ParseFloat "-Infinity" = inr neg_infinity
  ∧ Strconv.ParseFloat "NaN" = inr nan
  ∧ Strconv.ParseFloat "1x" = inl (Strconv.syntaxError "ParseFloat" "1x")
  ∧ Strconv.ParseFloat ".e-1" = inl (Strconv.syntaxError "ParseFloat" ".e-1").
Proof. vm_compute. repeat split. Qed.

(** Every error of [parseRate] is one of its own wrapping. *)
Lemma parseRate_total (s : string) :
  (∃ rate, parseRate s = inr rate)
  ∨ (∃ err, parseRate s = inl (wrapError "failed to parse rate: " err)).
Proof.
  unfold parseRate. destruct (Strconv.ParseFloat _) as [err|rate]; eauto.
Qed.

(** The literal [91.23] denotes the binary64 value [m * 2^-46] with
    [m = 6419740531328287], and [m] is within one half of [91.23 * 2^46]:
    it is the binary64 value nearest to 91.23. *)
Lemma float_91_23_nearest :
  Prim2SF 0x1.6ceb851eb851fp+6 = S754_finite false 6419740531328287 (-46)
  ∧ 2 * Z.abs (100 * 6419740531328287 - 9123 * 2 ^ 46) ≤ 100.
Proof. split; [vm_compute; reflexivity|]. vm_compute. discriminate. Qed.

(** C8: [parseRate] replaces the first comma by a dot and parses the
    result as a binary64 float: a string without a comma is parsed as it
    is, a string [a,b] as [a.b]; ["91,23"] and ["91.23"] both give the
    float nearest to 91.23; ["abc"] and [""] give an error of the parser (a
    [ParseError] of the specification); and every input gives either a
    float or such an error, nothing else. *)
Theorem parseRate_spec :
  parseRate "91,23" = inr 0x1.6ceb851eb851fp+6%float
  ∧ parseRate "91.23" = inr 0x1.6ceb851eb851fp+6%float
  ∧ parseRate "abc"
    = inl (wrapError "failed to parse rate: " (NumError "ParseFloat" "abc" ErrSyntax))
  ∧ parseRate ""
    = inl (wrapError "failed to parse rate: " (NumError "ParseFloat" "" ErrSyntax))
  ∧ (∀ a b : string, Strings.Index a "," = None →
       parseRate (a +:+ "," +:+ b) =
         match Strconv.ParseFloat (a +:+ "." +:+ b) with
         | inl err => inl (wrapError "failed to parse rate: " err)
         | inr rate => inr rate
         end)
  ∧ (∀ s : string, Strings.Index s "," = None →
       parseRate s =
         match Strconv.ParseFloat s with
         | inl err => inl (wrapError "failed to parse rate: " err)
         | inr rate => inr rate
         end)
  ∧ (∀ s : string,
       (∃ rate, parseRate s = inr rate)
       ∨ (∃ err, parseRate s = inl err ∧ kindOf err = Some ParseError)).
Proof.
  split; [vm_compute; reflexivity|]. split; [vm_compute; reflexivity|].
  split; [vm_compute; reflexivity|]. split; [vm_compute; reflexivity|].
  repeat split.
  - intros a b Ha. unfold parseRate. by rewrite Replace_first_comma.
  - intros s Hs. unfold parseRate. by rewrite Replace_no_comma.
  - intros s. destruct (parseRate_total s) as [[rate ->]|[err ->]]; eauto.
Qed.

(** ** The currency service *)

(** The loop of [GetUsdRate] returns at the first entry whose code is
    [USD]. *)
Lemma usdLoop_find (valutes : list Valute) :
  usdLoop valutes =
  match list_find (λ valute, CharCode valute = "USD") valutes with
  | Some (_, valute) => parseRate (Valute_Value valute)
  | None => inl (errorString "USD rate not found")
  end.
Proof.
  induction valutes as [|valute rest IH]; simpl; [done|].
  destruct (String.eqb_spec (CharCode valute) "USD") as [Heq|Hne].
  - by rewrite decide_True.
  - rewrite decide_False by done. rewrite IH.
    by destruct (list_find _ rest) as [[i v]|].
Qed.

Lemma usdLoop_first (pre post : list Valute) (valute : Valute) :
  Forall (λ w, CharCode w ≠ "USD") pre →
  CharCode valute = "USD" →
  usdLoop (pre ++ valute :: post)%list = parseRate (Valute_Value valute).
Proof.
  intros Hpre Hv. induction Hpre as [|w pre Hw _ IH]; simpl.
  - by rewrite Hv.
  - apply String.eqb_neq in Hw. by rewrite Hw.
Qed.

Lemma usdLoop_none (valutes : list Valute) :
  Forall (λ w, CharCode w ≠ "USD") valutes →
  usdLoop valutes = inl (errorString "USD rate not found").
Proof.
  induction 1 as [|w l Hw _ IH]; simpl; [done|].
  apply String.eqb_neq in Hw. by rewrite Hw.
Qed.

(** C6: once the daily snapshot has been fetched, [GetUsdRate] returns
    what [parseRate] makes of the value of the first entry whose code is
    exactly [USD], and the error [USD rate not found] (the [NotFoundError]
    of the specification) when no entry has that code; a code in another
    case does not match; for the entries [EUR 100,00] and [USD 91,23] the
    result is the float nearest to 91.23. *)
Theorem GetUsdRate_first_USD (s : CurrencyService) (io : FetchIO) (doc : ValCurs) :
  (GetDailyRates s io).1 = inr doc →
  GetUsdRate s io =
    (match list_find (λ valute, CharCode valute = "USD") (Valutes doc) with
     | Some (_, valute) => parseRate (Valute_Value valute)
     | None => inl (errorString "USD rate not found")
     end, (GetDailyRates s io).2)
  ∧ (∀ pre valute post,
       Valutes doc = (pre ++ valute :: post)%list →
       Forall (λ w, CharCode w ≠ "USD") pre →
       CharCode valute = "USD" →
       (GetUsdRate s io).1 = parseRate (Valute_Value valute))
  ∧ (Forall (λ w, CharCode w ≠ "USD") (Valutes doc) →
       (GetUsdRate s io).1 = inl (errorString "USD rate not found")
       ∧ kindOf (errorString "USD rate not found") = Some NotFoundError)
  ∧ (Valutes doc = [mkValute "usd" "91,23"] →
       (GetUsdRate s io).1 = inl (errorString "USD rate not found"))
  ∧ (Valutes doc = [mkValute "EUR" "100,00"; mkValute "USD" "91,23"] →
       (GetUsdRate s io).1 = inr 0x1.6ceb851eb851fp+6%float).
Proof.
  intros Hfetch. unfold GetUsdRate.
  destruct (GetDailyRates s io) as [r s']. simpl in Hfetch. subst r.
  cbn [fst snd]. repeat split.
  - by rewrite usdLoop_find.
  - intros pre valute post -> Hpre Hv. by rewrite usdLoop_first.
  - by rewrite usdLoop_none.
  - intros ->. vm_compute. reflexivity.
  - intros ->. vm_compute. reflexivity.
Qed.

Lemma GetUsdRate_first_USD_witness :
  let doc := mkValCurs "02.03.2024"
               [mkValute "EUR" "100,00"; mkValute "USD" "91,23"; mkValute "USD" "1,00"]
               [] in
  let io := mkFetchIO (Time.mkTime 0 0) None (inr (mkResponse 200 (inr doc)))
              (Time.mkTime 1 0) in
  (GetDailyRates NewCurrencyService io).1 = inr doc
  ∧ (GetUsdRate NewCurrencyService io).1 = inr 0x1.6ceb851eb851fp+6%float.
Proof.
  intros doc io.
  assert ((GetDailyRates NewCurrencyService io).1 = inr doc) as Hfetch
    by (vm_compute; reflexivity).
  split; [exact Hfetch|].
  destruct (GetUsdRate_first_USD NewCurrencyService io doc Hfetch) as (_ & H & _).
  rewrite (H [mkValute "EUR" "100,00"] (mkValute "USD" "91,23") [mkValute "USD" "1,00"]).
  - vm_compute. reflexivity.
  - reflexivity.
  - repeat constructor. discriminate.
  - reflexivity.
Defined.

(** What the loop of [GetUsdRatesHistory] keeps of one record. *)
Lemma historyLoop_omap (records : list Record_) (history : list RateHistory) :
  historyLoop records history =
  (history ++
   omap (λ record,
           match parseRate (Record_Value record) with
           | inl _ => None
           | inr rate => Some (mkRateHistory (Record_Date record) rate)
           end) records)%list.
Proof.
  revert history. induction records as [|record rest IH]; intros history; simpl.
  - by rewrite app_nil_r.
  - destruct (parseRate (Record_Value record)) as [err|rate]; rewrite IH; [done|].
    by rewrite <- app_assoc.
Qed.

(** C7: once the historical document has been fetched,
    [GetUsdRatesHistory] returns, in the order of the records, the date
    and the parsed rate of every record whose value [parseRate] accepts,
    and leaves out the others without failing; for the three records of
    the example, the first and the third are returned. *)
Theorem GetUsdRatesHistory_skips_unparsable (s : CurrencyService) (now : Time.Time)
    (io : FetchIO) (doc : ValCurs) :
  (fetchXML s (historyURL now) io).1 = inr doc →
  GetUsdRatesHistory s now io =
    (inr (omap (λ record,
                  match parseRate (Record_Value record) with
                  | inl _ => None
                  | inr rate => Some (mkRateHistory (Record_Date record) rate)
                  end) (Records doc)), (fetchXML s (historyURL now) io).2)
  ∧ (Records doc = [mkRecord "01.01.2024" "91,00"; mkRecord "02.01.2024" "bad";
                    mkRecord "03.01.2024" "92,50"] →
     (GetUsdRatesHistory s now io).1 =
       inr [mkRateHistory "01.01.2024" 91%float; mkRateHistory "03.01.2024" 92.5%float]).
Proof.
  intros Hfetch. unfold GetUsdRatesHistory.
  destruct (fetchXML s (historyURL now) io) as [r s']. simpl in Hfetch. subst r.
  rewrite historyLoop_omap. simpl.
  split; [done|]. intros ->. vm_compute. reflexivity.
Qed.

Lemma GetUsdRatesHistory_skips_unparsable_witness :
  let doc := mkValCurs ""
               [] [mkRecord "01.01.2024" "91,00"; mkRecord "02.01.2024" "bad";
                   mkRecord "03.01.2024" "92,50"] in
  let now := Time.mkTime 1704300000000000000 10800 in
  let io := mkFetchIO now None (inr (mkResponse 200 (inr doc))) now in
  (fetchXML NewCurrencyService (historyURL now) io).1 = inr doc
  ∧ (GetUsdRatesHistory NewCurrencyService now io).1 =
      inr [mkRateHistory "01.01.2024" 91%float; mkRateHistory "03.01.2024" 92.5%float].
Proof.
  intros doc now io.
  assert ((fetchXML NewCurrencyService (historyURL now) io).1 = inr doc) as Hfetch
    by (vm_compute; reflexivity).
  split; [exact Hfetch|].
  destruct (GetUsdRatesHistory_skips_unparsable NewCurrencyService now io doc Hfetch)
    as [_ H].
  apply H. reflexivity.
Defined.

(** C10: once the historical document has been fetched,
    [GetUsdRatesHistory] returns a list and no error; when the document
    has no record, or when [parseRate] refuses the value of every record,
    the list is empty. *)
Theorem GetUsdRatesHistory_no_error (s : CurrencyService) (now : Time.Time)
    (io : FetchIO) (doc : ValCurs) :
  (fetchXML s (historyURL now) io).1 = inr doc →
  (∃ history, (GetUsdRatesHistory s now io).1 = inr history)
  ∧ (Records doc = [] → (GetUsdRatesHistory s now io).1 = inr [])
  ∧ (Forall (λ record, ∃ err, parseRate (Record_Value record) = inl err) (Records doc) →
     (GetUsdRatesHistory s now io).1 = inr []).
Proof.
  intros Hfetch. unfold GetUsdRatesHistory.
  destruct (fetchXML s (historyURL now) io) as [r s']. simpl in Hfetch. subst r.
  cbn [fst]. split; [eauto|]. split.
  - by intros ->.
  - intros Hall. f_equal.
    generalize (@nil RateHistory).
    induction Hall as [|record rest [err Herr] _ IH]; intros history; simpl; [done|].
    rewrite Herr. apply IH.
Qed.

Lemma GetUsdRatesHistory_no_error_witness :
  let doc := mkValCurs "" [] [mkRecord "01.01.2024" "n/a"; mkRecord "02.01.2024" ""] in
  let now := Time.mkTime 1704300000000000000 10800 in
  let io := mkFetchIO now None (inr (mkResponse 200 (inr doc))) now in
  (fetchXML NewCurrencyService (historyURL now) io).1 = inr doc
  ∧ (GetUsdRatesHistory NewCurrencyService now io).1 = inr [].
Proof.
  intros doc now io.
  assert ((fetchXML NewCurrencyService (historyURL now) io).1 = inr doc) as Hfetch
    by (vm_compute; reflexivity).
  split; [exact Hfetch|].
  destruct (GetUsdRatesHistory_no_error NewCurrencyService now io doc Hfetch)
    as (_ & _ & H).
  apply H. repeat constructor; eexists; vm_compute; reflexivity.
Defined.




(** * Further properties of the code *)

(** ** The TTL cache *)

(** [Get] after [Set], for the key set and for any other. *)
Lemma Cache_Get_Set {V : Type} (c : Cache V) (k k' : string) (v : V) (ttl : Z)
    (now now' : Time.Time) :
  Cache_Get (Cache_Set c k v ttl now) k' now' =
  if decide (k = k') then
    if Time.unixNano now' <=? Time.unixNano now + ttl then Some v else None
  else Cache_Get c k' now'.
Proof.
  unfold Cache_Get. rewrite Cache_Set_expiration, Cache_Set_data.
  destruct (decide (k = k')); [|done].
  unfold Time.After, Time.Add. cbn [Time.unixNano].
  destruct (Z.leb_spec (Time.unixNano now') (Time.unixNano now + ttl)) as [Hle|Hlt].
  - apply Z.ltb_ge in Hle. by rewrite Hle.
  - apply Z.ltb_lt in Hlt. by rewrite Hlt.
Qed.

(** X1: [Set] on one key changes nothing that [Get] returns for another
    key, at any time. *)
Theorem Cache_Get_Set_other {V : Type} (c : Cache V) (k k' : string) (v : V) (ttl : Z)
    (now now' : Time.Time) :
  k' ≠ k →
  Cache_Get (Cache_Set c k v ttl now) k' now' = Cache_Get c k' now'.
Proof. intros Hne. rewrite Cache_Get_Set. by rewrite decide_False. Qed.

Lemma Cache_Get_Set_other_witness :
  "b" ≠ "a"
  ∧ Cache_Get (Cache_Set (runSets [mkSetCall "b" 1 10 (Time.mkTime 0 0)]) "a" 2 10
                 (Time.mkTime 5 0)) "b" (Time.mkTime 7 0) = Some 1.
Proof.
  split; [discriminate|].
  rewrite (Cache_Get_Set_other (runSets [mkSetCall "b" 1 10 (Time.mkTime 0 0)])
             "a" "b" 2 10 (Time.mkTime 5 0) (Time.mkTime 7 0)); [|discriminate].
  vm_compute. reflexivity.
Defined.

(** X2: without a new [Set], an entry that [Get] finds at some time is
    found, with the same value, at every earlier time: an entry that has
    expired never comes back. *)
Theorem Cache_Get_earlier {V : Type} (c : Cache V) (k : string) (v : V)
    (now now' : Time.Time) :
  Cache_Get c k now' = Some v →
  Time.unixNano now ≤ Time.unixNano now' →
  Cache_Get c k now = Some v.
Proof.
  rewrite !Cache_Get_Some. intros (exp & He & Hle & Hd) Hnow.
  exists exp. repeat split; [done|lia|done].
Qed.

Lemma Cache_Get_earlier_witness :
  Cache_Get (runSets [mkSetCall "k" 1 10 (Time.mkTime 0 0)]) "k" (Time.mkTime 10 0) = Some 1
  ∧ Time.unixNano (Time.mkTime 3 0) ≤ Time.unixNano (Time.mkTime 10 0)
  ∧ Cache_Get (runSets [mkSetCall "k" 1 10 (Time.mkTime 0 0)]) "k" (Time.mkTime 3 0) = Some 1.
Proof.
  assert (Cache_Get (runSets [mkSetCall "k" 1 10 (Time.mkTime 0 0)]) "k"
            (Time.mkTime 10 0) = Some 1) as H by (vm_compute; reflexivity).
  assert (Time.unixNano (Time.mkTime 3 0) ≤ Time.unixNano (Time.mkTime 10 0)) as Hle
    by (simpl; lia).
  split; [exact H|]. split; [exact Hle|].
  exact (Cache_Get_earlier _ "k" 1 (Time.mkTime 3 0) (Time.mkTime 10 0) H Hle).
Defined.

(** X3: whatever the cache held for the key and whatever the sign of the
    TTL, after [Set(k, v, ttl)] at [now] a [Get(k)] at [now'] returns [v]
    when [now'] is not after [now + ttl] and nothing otherwise: the new
    expiration replaces the old one even when it is earlier, and a
    negative TTL stores an entry that is expired from the start. *)
Theorem Cache_Get_Set_same {V : Type} (c : Cache V) (k : string) (v : V) (ttl : Z)
    (now now' : Time.Time) :
  Cache_Get (Cache_Set c k v ttl now) k now' =
  if Time.unixNano now' <=? Time.unixNano now + ttl then Some v else None.
Proof. rewrite Cache_Get_Set. by rewrite decide_True. Qed.

(** X4: in a cache built by [NewCache] and calls of [Set], [Get(key)]
    returns [v] exactly when the last call of [Set] for that key stored
    [v] and the current time is not after that call's clock plus its TTL;
    earlier calls for the key play no part. *)
Theorem Cache_Get_last_Set {V : Type} (calls : list (SetCall V)) (key : string) (v : V)
    (now : Time.Time) :
  Cache_Get (runSets calls) key now = Some v ↔
  ∃ pre x post,
    calls = (pre ++ x :: post)%list
    ∧ call_key x = key
    ∧ (key ∉ call_key <$> post)
    ∧ call_value x = v
    ∧ Time.unixNano now ≤ Time.unixNano (call_now x) + call_ttl x.
Proof.
  induction calls as [|y calls IH] using rev_ind.
  - split; [discriminate|]. intros (pre & x & post & Heq & _).
    by destruct pre.
  - rewrite runSets_snoc.
    destruct (decide (call_key y = key)) as [Hy|Hy].
    + subst key. rewrite Cache_Get_Set, decide_True by done. split.
      * destruct (Z.leb_spec (Time.unixNano now)
                    (Time.unixNano (call_now y) + call_ttl y)) as [Hle|Hlt];
          [|discriminate].
        intros [= <-]. exists calls, y, []. repeat split; [|done].
        cbn. apply not_elem_of_nil.
      * intros (pre & x & post & Heq & Hk & Hpost & Hv & Hle).
        destruct post as [|z post _] using rev_ind.
        -- apply app_inj_tail in Heq as [_ <-].
           apply Z.leb_le in Hle. by rewrite Hle, Hv.
        -- rewrite app_comm_cons, app_assoc in Heq.
           apply app_inj_tail in Heq as [_ <-].
           exfalso. apply Hpost. rewrite fmap_app, elem_of_app. right.
           cbn. rewrite list_elem_of_singleton. done.
    + rewrite Cache_Get_Set, decide_False by done. rewrite IH. split.
      * intros (pre & x & post & -> & Hk & Hpost & Hv & Hle).
        exists pre, x, (post ++ [y])%list. rewrite <- app_assoc. repeat split; try done.
        rewrite fmap_app, elem_of_app. intros [?|Hin]; [done|].
        cbn in Hin. apply list_elem_of_singleton in Hin. congruence.
      * intros (pre & x & post & Heq & Hk & Hpost & Hv & Hle).
        destruct post as [|z post _] using rev_ind.
        -- apply app_inj_tail in Heq as [_ <-]. congruence.
        -- rewrite app_comm_cons, app_assoc in Heq.
           apply app_inj_tail in Heq as [-> <-].
           exists pre, x, post. repeat split; try done.
           intros Hin. apply Hpost. rewrite fmap_app, elem_of_app. by left.
Qed.

(** ** The fetch pipeline *)

(** The four ways a call of [fetchXML] can go, with the state it leaves:
    a hit; a request that cannot be built; a request sent and an error; a
    request sent and a document stored. *)
Lemma fetchXML_cases (s : CurrencyService) (url : string) (io : FetchIO) :
  (∃ doc, Cache_Get (cache s) url (nowGet io) = Some doc
          ∧ fetchXML s url io = (inr doc, s))
  ∨ (Cache_Get (cache s) url (nowGet io) = None
     ∧ ∃ e, newRequestErr io = Some e
            ∧ fetchXML s url io = (inl (wrapError "failed to create request: " e), s))
  ∨ (Cache_Get (cache s) url (nowGet io) = None
     ∧ newRequestErr io = None
     ∧ ∃ err, fetchXML s url io = (inl err, mkService (Do (client s) url) (cache s)))
  ∨ (Cache_Get (cache s) url (nowGet io) = None
     ∧ newRequestErr io = None
     ∧ ∃ doc, fetchXML s url io =
                (inr doc,
                 mkService (Do (client s) url)
                   (Cache_Set (cache s) url doc cacheExpiration (nowSet io)))).
Proof.
  unfold fetchXML.
  destruct (Cache_Get (cache s) url (nowGet io)) as [doc|]; [left; eauto|].
  right. destruct (newRequestErr io) as [e|]; [left; eauto|].
  right. destruct (doResult io) as [err|resp]; [left; eauto|].
  destruct (negb (StatusCode resp =? StatusOK)); [left; eauto|].
  destruct (Decode resp) as [err|doc]; [left; eauto|right; eauto].
Qed.

(** X5: a call of [fetchXML(url)] leaves the entries of every other key
    as they were, in both maps, so that [Get] of another key returns what
    it returned before. *)
Theorem fetchXML_other_keys (s : CurrencyService) (url k : string) (io : FetchIO) :
  k ≠ url →
  data (cache (fetchXML s url io).2) !! k = data (cache s) !! k
  ∧ expiration (cache (fetchXML s url io).2) !! k = expiration (cache s) !! k
  ∧ ∀ now, Cache_Get (cache (fetchXML s url io).2) k now = Cache_Get (cache s) k now.
Proof.
  intros Hne.
  destruct (fetchXML_cases s url io)
    as [(doc & _ & ->)|[(_ & e & _ & ->)|[(_ & _ & err & ->)|(_ & _ & doc & ->)]]];
    cbn [snd cache]; try done.
  rewrite Cache_Set_data, Cache_Set_expiration, !decide_False by done.
  repeat split. intros now. unfold Cache_Get.
  by rewrite Cache_Set_data, Cache_Set_expiration, !decide_False.
Qed.

Lemma fetchXML_other_keys_witness :
  let daily := mkValCurs "02.03.2024" [mkValute "USD" "91,23"] [] in
  let week := mkValCurs "" [] [mkRecord "01.03.2024" "91,00"] in
  let io1 := mkFetchIO (Time.mkTime 0 0) None (inr (mkResponse 200 (inr daily)))
               (Time.mkTime 1 0) in
  let io2 := mkFetchIO (Time.mkTime 2 0) None (inr (mkResponse 200 (inr week)))
               (Time.mkTime 3 0) in
  let s := (fetchXML NewCurrencyService dailyRatesURL io1).2 in
  dailyRatesURL ≠ "history"
  ∧ Cache_Get (cache s) "history" (Time.mkTime 4 0) = None
  ∧ Cache_Get (cache (fetchXML s "history" io2).2) "history" (Time.mkTime 4 0)
    = Some week
  ∧ Cache_Get (cache (fetchXML s "history" io2).2) dailyRatesURL (Time.mkTime 4 0)
    = Some daily.
Proof.
  intros daily week io1 io2 s.
  assert (dailyRatesURL ≠ "history") as Hne by discriminate.
  split; [exact Hne|].
  split; [vm_compute; reflexivity|].
  split; [vm_compute; reflexivity|].
  destruct (fetchXML_other_keys s "history" dailyRatesURL io2 Hne) as (_ & _ & H).
  rewrite (H (Time.mkTime 4 0)). vm_compute. reflexivity.
Defined.

(** X7: when [fetchXML(url)] returns a document, the cache afterwards
    holds that document under [url]; either it was already there and not
    expired, and nothing has changed, or it has just been fetched and
    expires one hour after the clock [Set] read. *)
Theorem fetchXML_success_cached (s : CurrencyService) (url : string) (io : FetchIO)
    (doc : ValCurs) :
  (fetchXML s url io).1 = inr doc →
  data (cache (fetchXML s url io).2) !! url = Some doc
  ∧ ∃ exp, expiration (cache (fetchXML s url io).2) !! url = Some exp
      ∧ ((Cache_Get (cache s) url (nowGet io) = Some doc
          ∧ (fetchXML s url io).2 = s
          ∧ Time.unixNano (nowGet io) ≤ Time.unixNano exp)
         ∨ (Cache_Get (cache s) url (nowGet io) = None
            ∧ Time.unixNano exp = Time.unixNano (nowSet io) + 3600000000000)).
Proof.
  destruct (fetchXML_cases s url io)
    as [(d & Hget & ->)|[(_ & e & _ & ->)|[(_ & _ & err & ->)|(Hget & _ & d & ->)]]];
    cbn [fst snd cache]; try discriminate; intros [= ->].
  - pose proof Hget as Hget'.
    apply Cache_Get_Some in Hget' as (exp & He & Hle & Hd).
    split; [done|]. exists exp. split; [done|]. by left.
  - rewrite Cache_Set_data, Cache_Set_expiration, !decide_True by done.
    split; [done|]. eexists. split; [done|]. right. split; [done|].
    cbn [Time.Add Time.unixNano]. by rewrite cacheExpiration_ns.
Qed.

Lemma fetchXML_success_cached_witness :
  let doc := mkValCurs "02.03.2024" [mkValute "USD" "91,23"] [] in
  let io := mkFetchIO (Time.mkTime 0 0) None (inr (mkResponse 200 (inr doc)))
              (Time.mkTime 1 0) in
  (fetchXML NewCurrencyService dailyRatesURL io).1 = inr doc
  ∧ data (cache (fetchXML NewCurrencyService dailyRatesURL io).2) !! dailyRatesURL
    = Some doc.
Proof.
  intros doc io.
  assert ((fetchXML NewCurrencyService dailyRatesURL io).1 = inr doc) as H
    by (vm_compute; reflexivity).
  split; [exact H|].
  exact (proj1 (fetchXML_success_cached NewCurrencyService dailyRatesURL io doc H)).
Defined.

(** X8: an error of [fetchXML] is one of four: the request could not be
    built (nothing is sent), the request failed, the status was not 200
    (the message ends with the status), or the body did not decode; the
    first three are [FetchError]s of the specification and the last a
    [ParseError].  A call that hits the cache returns no error. *)
Theorem fetchXML_errors (s : CurrencyService) (url : string) (io : FetchIO) (err : error) :
  (fetchXML s url io).1 = inl err →
  Cache_Get (cache s) url (nowGet io) = None
  ∧ ((∃ e, newRequestErr io = Some e
           ∧ err = wrapError "failed to create request: " e
           ∧ (fetchXML s url io).2 = s
           ∧ kindOf err = Some FetchError)
     ∨ (∃ e, doResult io = inl e
             ∧ err = wrapError "failed to fetch data: " e
             ∧ kindOf err = Some FetchError)
     ∨ (∃ resp, doResult io = inr resp
                ∧ StatusCode resp ≠ 200
                ∧ err = errorString ("unexpected status code: " +:+ pretty (StatusCode resp))
                ∧ kindOf err = Some FetchError)
     ∨ (∃ resp e, doResult io = inr resp
                  ∧ StatusCode resp = 200
                  ∧ Decode resp = inl e
                  ∧ err = wrapError "failed to parse XML: " e
                  ∧ kindOf err = Some ParseError)).
Proof.
  unfold fetchXML.
  destruct (Cache_Get (cache s) url (nowGet io)); [discriminate|].
  destruct (newRequestErr io) as [e|].
  { simpl. intros [= <-]. split; [done|]. left. exists e. repeat split. }
  destruct (doResult io) as [e|resp].
  { simpl. intros [= <-]. split; [done|]. right. left. exists e. repeat split. }
  destruct (StatusCode resp =? StatusOK) eqn:Hs; simpl.
  - apply Z.eqb_eq in Hs. destruct (Decode resp) as [e|doc] eqn:Hd; [|discriminate].
    simpl. intros [= <-]. split; [done|]. do 3 right. exists resp, e.
    split; [done|]. split; [exact Hs|]. split; [exact Hd|]. split; reflexivity.
  - apply Z.eqb_neq in Hs. intros [= <-]. split; [done|]. do 2 right. left.
    exists resp. split; [done|]. split; [exact Hs|]. split; [done|].
    unfold kindOf. rewrite prefix_append. reflexivity.
Qed.

Lemma fetchXML_errors_witness :
  let io := mkFetchIO (Time.mkTime 0 0) None (inl (errorString "timeout"))
              (Time.mkTime 1 0) in
  (fetchXML NewCurrencyService dailyRatesURL io).1
    = inl (wrapError "failed to fetch data: " (errorString "timeout"))
  ∧ Cache_Get (cache NewCurrencyService) dailyRatesURL (nowGet io) = None.
Proof.
  intros io.
  assert ((fetchXML NewCurrencyService dailyRatesURL io).1
          = inl (wrapError "failed to fetch data: " (errorString "timeout"))) as H
    by (vm_compute; reflexivity).
  split; [exact H|].
  exact (proj1 (fetchXML_errors NewCurrencyService dailyRatesURL io _ H)).
Defined.

Lemma runFetches_snoc (calls : list (string * FetchIO)) (call : string * FetchIO) :
  runFetches (calls ++ [call]) = (fetchXML (runFetches calls) call.1 call.2).2.
Proof. unfold runFetches. by rewrite foldl_app. Qed.

(** X9: in a service built by [NewCurrencyService] and calls of
    [fetchXML], the timeout of the client is the five seconds it started
    with, the two maps of the cache have the same keys, and every cached
    URL has been requested over the network by one of the calls and
    expires one hour after the clock that call's [Set] read. *)
Theorem runFetches_invariant (calls : list (string * FetchIO)) (url : string) :
  Timeout (client (runFetches calls)) = 5 * 1000000000
  ∧ (is_Some (data (cache (runFetches calls)) !! url)
     ↔ is_Some (expiration (cache (runFetches calls)) !! url))
  ∧ ∀ exp, expiration (cache (runFetches calls)) !! url = Some exp →
      url ∈ sent (client (runFetches calls))
      ∧ ∃ io, (url, io) ∈ calls
              ∧ Time.unixNano exp = Time.unixNano (nowSet io) + 3600000000000.
Proof.
  induction calls as [|[u io] calls IH] using rev_ind.
  - cbn. rewrite !lookup_empty. split; [done|]. split; [|done].
    split; intros []; discriminate.
  - rewrite runFetches_snoc. cbn [fst snd].
    destruct IH as (Ht & Hdom & Hexp).
    assert (∀ exp, expiration (cache (runFetches calls)) !! url = Some exp →
              ∃ io', (url, io') ∈ (calls ++ [(u, io)])%list
                     ∧ Time.unixNano exp = Time.unixNano (nowSet io') + 3600000000000)
      as Hold.
    { intros exp He. destruct (Hexp exp He) as (_ & io' & Hio & Hns).
      exists io'. split; [|done]. rewrite elem_of_app. by left. }
    destruct (fetchXML_cases (runFetches calls) u io)
      as [(d & _ & ->)|[(_ & e & _ & ->)|[(_ & _ & err & ->)|(_ & _ & d & ->)]]];
      cbn [snd cache client Do Timeout sent].
    + split; [done|]. split; [done|]. intros exp He. split; [|by apply Hold].
      by apply Hexp in He as [? _].
    + split; [done|]. split; [done|]. intros exp He. split; [|by apply Hold].
      by apply Hexp in He as [? _].
    + split; [done|]. split; [done|]. intros exp He. split; [|by apply Hold].
      apply Hexp in He as [? _]. rewrite elem_of_app. by left.
    + split; [done|].
      rewrite Cache_Set_data, Cache_Set_expiration.
      destruct (decide (u = url)) as [->|Hne].
      * split; [split; eauto|]. intros exp [= <-]. split.
        -- rewrite elem_of_app, list_elem_of_singleton. by right.
        -- exists io. split.
           ++ rewrite elem_of_app, list_elem_of_singleton. by right.
           ++ cbn [Time.Add Time.unixNano]. by rewrite cacheExpiration_ns.
      * split; [done|]. intros exp He. split; [|by apply Hold].
        apply Hexp in He as [? _]. rewrite elem_of_app. by left.
Qed.

(** ** The currency service *)

(** After a call that returned a document, a call whose clock is not
    after the expiration instant of the entry returns the same document
    and changes nothing. *)
Lemma fetchXML_again (s : CurrencyService) (url : string) (io1 io2 : FetchIO)
    (doc : ValCurs) (exp : Time.Time) :
  (fetchXML s url io1).1 = inr doc →
  expiration (cache (fetchXML s url io1).2) !! url = Some exp →
  Time.unixNano (nowGet io2) ≤ Time.unixNano exp →
  fetchXML (fetchXML s url io1).2 url io2 = (inr doc, (fetchXML s url io1).2).
Proof.
  intros Hok He Hle. apply fetchXML_hit. apply Cache_Get_Some.
  exists exp. split; [done|]. split; [done|].
  revert Hok He.
  destruct (fetchXML_cases s url io1)
    as [(d & Hget & ->)|[(_ & e & _ & ->)|[(_ & _ & err & ->)|(_ & _ & d & ->)]]];
    cbn [fst snd cache]; try discriminate; intros [= ->] _.
  - by apply Cache_Get_Some in Hget as (? & _ & _ & ?).
  - rewrite Cache_Set_data. by rewrite decide_True.
Qed.

Lemma GetUsdRate_state (s : CurrencyService) (io : FetchIO) :
  (GetUsdRate s io).2 = (fetchXML s dailyRatesURL io).2.
Proof.
  unfold GetUsdRate, GetDailyRates.
  by destruct (fetchXML s dailyRatesURL io) as [[err|doc] s'].
Qed.

Lemma usdLoop_error (valutes : list Valute) (err : error) :
  usdLoop valutes = inl err →
  (Forall (λ w, CharCode w ≠ "USD") valutes ∧ err = errorString "USD rate not found")
  ∨ ∃ pre valute post,
      valutes = (pre ++ valute :: post)%list
      ∧ Forall (λ w, CharCode w ≠ "USD") pre
      ∧ CharCode valute = "USD"
      ∧ parseRate (Valute_Value valute) = inl err.
Proof.
  induction valutes as [|w rest IH]; simpl.
  - intros [= <-]. left. by split.
  - destruct (String.eqb_spec (CharCode w) "USD") as [Heq|Hne].
    + intros Hp. right. exists [], w, rest. by repeat split.
    + intros Hr. destruct (IH Hr) as [[Hall ->]|(pre & v & post & -> & Hpre & Hv & Hp)].
      * left. split; [by constructor|done].
      * right. exists (w :: pre), v, post. repeat split; try done. by constructor.
Qed.

(** X10: an error of [GetUsdRate] is either the error of the fetch,
    passed on as it is, or [USD rate not found] when the snapshot has no
    entry with the code [USD], or the parser's error for the value of the
    first such entry (later entries are not tried); in every case the
    service is left as the fetch left it. *)
Theorem GetUsdRate_errors (s : CurrencyService) (io : FetchIO) (err : error) :
  (GetUsdRate s io).1 = inl err →
  (GetUsdRate s io).2 = (GetDailyRates s io).2
  ∧ ((GetDailyRates s io).1 = inl err
     ∨ ∃ doc, (GetDailyRates s io).1 = inr doc
         ∧ ((Forall (λ w, CharCode w ≠ "USD") (Valutes doc)
             ∧ err = errorString "USD rate not found")
            ∨ ∃ pre valute post e,
                Valutes doc = (pre ++ valute :: post)%list
                ∧ Forall (λ w, CharCode w ≠ "USD") pre
                ∧ CharCode valute = "USD"
                ∧ err = wrapError "failed to parse rate: " e
                ∧ parseRate (Valute_Value valute) = inl err)).
Proof.
  intros Herr. split; [apply GetUsdRate_state|].
  revert Herr. unfold GetUsdRate.
  destruct (GetDailyRates s io) as [[e|doc] s']; cbn [fst].
  - intros [= <-]. by left.
  - intros Hloop. right. exists doc. split; [done|].
    destruct (usdLoop_error _ _ Hloop) as [?|(pre & v & post & Hv & Hpre & Hc & Hp)];
      [by left|].
    right. destruct (parseRate_total (Valute_Value v)) as [[rate Hr]|[e He]];
      [congruence|].
    exists pre, v, post, e. repeat split; try done. congruence.
Qed.

Lemma GetUsdRate_errors_witness :
  let doc := mkValCurs "02.03.2024"
               [mkValute "EUR" "100,00"; mkValute "USD" "n/a"; mkValute "USD" "91,23"]
               [] in
  let io := mkFetchIO (Time.mkTime 0 0) None (inr (mkResponse 200 (inr doc)))
              (Time.mkTime 1 0) in
  (GetUsdRate NewCurrencyService io).1
    = inl (wrapError "failed to parse rate: " (NumError "ParseFloat" "n/a" ErrSyntax))
  ∧ (GetUsdRate NewCurrencyService io).2 = (GetDailyRates NewCurrencyService io).2.
Proof.
  intros doc io.
  assert ((GetUsdRate NewCurrencyService io).1
          = inl (wrapError "failed to parse rate: "
                   (NumError "ParseFloat" "n/a" ErrSyntax))) as H
    by (vm_compute; reflexivity).
  split; [exact H|].
  exact (proj1 (GetUsdRate_errors NewCurrencyService io _ H)).
Defined.

(** X11: when [GetUsdRate] has fetched the daily snapshot (whether or not
    it then found a rate in it), a call of [GetCursDate] whose clock is
    not after the expiration instant of the cached snapshot returns the
    date of that same document, sends no request and leaves the service
    as it is. *)
Theorem GetUsdRate_then_GetCursDate (s : CurrencyService) (io1 io2 : FetchIO)
    (doc : ValCurs) (exp : Time.Time) :
  (GetDailyRates s io1).1 = inr doc →
  expiration (cache (GetUsdRate s io1).2) !! dailyRatesURL = Some exp →
  Time.unixNano (nowGet io2) ≤ Time.unixNano exp →
  GetCursDate (GetUsdRate s io1).2 io2 = (inr (ValCurs_Date doc), (GetUsdRate s io1).2).
Proof.
  rewrite GetUsdRate_state. unfold GetDailyRates. intros Hok He Hle.
  unfold GetCursDate, GetDailyRates.
  by rewrite (fetchXML_again s dailyRatesURL io1 io2 doc exp Hok He Hle).
Qed.

Lemma GetUsdRate_then_GetCursDate_witness :
  let doc := mkValCurs "02.03.2024" [mkValute "EUR" "100,00"] [] in
  let io1 := mkFetchIO (Time.mkTime 0 0) None (inr (mkResponse 200 (inr doc)))
               (Time.mkTime 5 0) in
  let io2 := mkFetchIO (Time.mkTime 60 0) None (inl (errorString "timeout"))
               (Time.mkTime 61 0) in
  (GetUsdRate NewCurrencyService io1).1 = inl (errorString "USD rate not found")
  ∧ (GetCursDate (GetUsdRate NewCurrencyService io1).2 io2).1 = inr "02.03.2024".
Proof.
  intros doc io1 io2. split; [vm_compute; reflexivity|].
  rewrite (GetUsdRate_then_GetCursDate NewCurrencyService io1 io2 doc
             (Time.mkTime (5 + 3600000000000) 0)).
  - reflexivity.
  - vm_compute. reflexivity.
  - vm_compute. reflexivity.
  - vm_compute. discriminate.
Defined.

(** What [omap] keeps of the records: a subsequence of the dates, no
    more points than records, and as many only when every value parses. *)
Lemma omap_records (records : list Record_) :
  let keep := λ record,
    match parseRate (Record_Value record) with
    | inl _ => None
    | inr rate => Some (mkRateHistory (Record_Date record) rate)
    end in
  sublist (RateHistory_Date <$> omap keep records) (Record_Date <$> records)
  ∧ (length (omap keep records) ≤ length records)%nat
  ∧ (length (omap keep records) = length records
     ↔ Forall (λ record, ∃ rate, parseRate (Record_Value record) = inr rate) records).
Proof.
  intros keep. induction records as [|record rest (IHs & IHl & IHa)].
  - cbn. split; [constructor|]. split; [lia|]. split; [constructor|done].
  - cbn [omap list_omap fmap list_fmap length].
    destruct (keep record) as [point|] eqn:Hk; unfold keep in Hk;
      destruct (parseRate (Record_Value record)) as [err|rate] eqn:Hp;
      try discriminate.
    + injection Hk as <-. cbn [fmap list_fmap length RateHistory_Date].
      split; [by apply sublist_skip|]. split; [lia|]. split.
      * intros Hlen. constructor; [eauto|]. apply IHa. lia.
      * intros Hall. apply Forall_cons in Hall as [_ Hall]. apply IHa in Hall. lia.
    + split; [by apply sublist_cons|]. split; [lia|]. split; [lia|].
      intros Hall. apply Forall_cons in Hall as [[rate Hr] _]. congruence.
Qed.

(** X12: the history [GetUsdRatesHistory] returns never has more points
    than the document has records; its dates are a subsequence of the
    dates of the records, in the same order; every point carries the
    parsed value of a record with its date; and no record is missing
    exactly when every value parses. *)
Theorem GetUsdRatesHistory_subsequence (s : CurrencyService) (now : Time.Time)
    (io : FetchIO) (doc : ValCurs) (history : list RateHistory) :
  (fetchXML s (historyURL now) io).1 = inr doc →
  (GetUsdRatesHistory s now io).1 = inr history →
  sublist (RateHistory_Date <$> history) (Record_Date <$> Records doc)
  ∧ (length history ≤ length (Records doc))%nat
  ∧ (∀ point, point ∈ history →
       ∃ record, record ∈ Records doc
                 ∧ Record_Date record = RateHistory_Date point
                 ∧ parseRate (Record_Value record) = inr (Rate point))
  ∧ (length history = length (Records doc)
     ↔ Forall (λ record, ∃ rate, parseRate (Record_Value record) = inr rate)
         (Records doc)).
Proof.
  intros Hfetch. unfold GetUsdRatesHistory.
  destruct (fetchXML s (historyURL now) io) as [r s']. simpl in Hfetch. subst r.
  cbn [fst]. rewrite historyLoop_omap, app_nil_l. intros [= <-].
  destruct (omap_records (Records doc)) as (Hs & Hl & Ha).
  split; [exact Hs|]. split; [exact Hl|]. split; [|exact Ha].
  intros point Hin. apply list_elem_of_omap in Hin as (record & Hrec & Hkeep).
  exists record. split; [done|].
  destruct (parseRate (Record_Value record)) as [err|rate]; [discriminate|].
  by injection Hkeep as <-.
Qed.

Lemma GetUsdRatesHistory_subsequence_witness :
  let doc := mkValCurs ""
               [] [mkRecord "01.01.2024" "91,00"; mkRecord "02.01.2024" "bad";
                   mkRecord "03.01.2024" "92,50"] in
  let now := Time.mkTime 1704300000000000000 10800 in
  let io := mkFetchIO now None (inr (mkResponse 200 (inr doc))) now in
  let history :=
    [mkRateHistory "01.01.2024" 91%float; mkRateHistory "03.01.2024" 92.5%float] in
  (fetchXML NewCurrencyService (historyURL now) io).1 = inr doc
  ∧ (GetUsdRatesHistory NewCurrencyService now io).1 = inr history
  ∧ (length history ≤ length (Records doc))%nat.
Proof.
  intros doc now io history.
  assert ((fetchXML NewCurrencyService (historyURL now) io).1 = inr doc) as H1
    by (vm_compute; reflexivity).
  assert ((GetUsdRatesHistory NewCurrencyService now io).1 = inr history) as H2
    by (vm_compute; reflexivity).
  split; [exact H1|]. split; [exact H2|].
  exact (proj1 (proj2 (GetUsdRatesHistory_subsequence _ _ _ _ _ H1 H2))).
Defined.

(** Where the offset of the location does not change over the eight days
    that end at [now], the URL of the historical query is a function of
    the day number. *)
Lemma historyURL_day (now : Time.Time) :
  Time.steadyOffset now →
  historyURL now =
  Sprintf dynamicRatesURL
    [Time.formatCivil (Time.civilOfDays (Time.dayNumber now - 7)) "02.01.2006";
     Time.formatCivil (Time.civilOfDays (Time.dayNumber now)) "02.01.2006"].
Proof.
  intros Hst. unfold historyURL, Time.Format. rewrite (dateOf_AddDate now Hst).
  reflexivity.
Qed.

Lemma append_inv_head (p a b : string) : p +:+ a = p +:+ b → a = b.
Proof.
  induction p as [|c p IH]; [done|]. rewrite !append_cons. intros [= H]. by apply IH.
Qed.

Lemma digitChar_inj (a b : Z) : digitChar a = digitChar b → a mod 10 = b mod 10.
Proof.
  unfold digitChar. intros H. apply (f_equal N_of_ascii) in H.
  rewrite !N_ascii_embedding in H by dlia. dlia.
Qed.

(** Two dates with years of four digits that are written alike are the
    same date. *)
Lemma DDMMYYYY_inj (c1 c2 : Time.civil) (rest1 rest2 : string) :
  0 ≤ Time.day c1 ≤ 99 → 0 ≤ Time.month c1 ≤ 99 → 0 ≤ Time.year c1 ≤ 9999 →
  0 ≤ Time.day c2 ≤ 99 → 0 ≤ Time.month c2 ≤ 99 → 0 ≤ Time.year c2 ≤ 9999 →
  DDMMYYYY c1 +:+ rest1 = DDMMYYYY c2 +:+ rest2 →
  c1 = c2.
Proof.
  destruct c1 as [y1 m1 d1], c2 as [y2 m2 d2]. cbn [Time.year Time.month Time.day].
  intros Hd1 Hm1 Hy1 Hd2 Hm2 Hy2. unfold DDMMYYYY.
  cbn [Time.year Time.month Time.day]. rewrite !append_cons.
  intros [= D1 D0 M1 M0 Y3 Y2 Y1 Y0 _].
  apply digitChar_inj in D1, D0, M1, M0, Y3, Y2, Y1, Y0.
  f_equal; dlia.
Qed.

(** X13: the URL of the historical query, which is the key of its cache
    entry, depends on the clock only through the calendar day: for dates
    between 08.01.0001 and 31.12.9999, two clock readings in a location
    whose offset has not changed over the eight days before each of them
    give the same URL exactly when they fall on the same day of the
    location. *)
Theorem historyURL_per_day (now1 now2 : Time.Time) :
  Time.steadyOffset now1 →
  Time.steadyOffset now2 →
  7 ≤ Time.dayNumber now1 < 3652059 →
  7 ≤ Time.dayNumber now2 < 3652059 →
  historyURL now1 = historyURL now2 ↔ Time.dayNumber now1 = Time.dayNumber now2.
Proof.
  intros Hs1 Hs2 H1 H2. rewrite (historyURL_day now1 Hs1), (historyURL_day now2 Hs2).
  split; [|by intros ->].
  rewrite !formatCivil_DDMMYYYY by lia.
  change (Sprintf dynamicRatesURL ?l) with
    ("https://www.cbr.ru/scripts/XML_dynamic.asp?date_req1=" +:+
     Sprintf "%s&date_req2=%s&VAL_NM_RQ=R01235" l).
  intros Heq. apply append_inv_head in Heq. cbn [Sprintf] in Heq.
  pose proof (year_range (Time.dayNumber now1 - 7)) as Hy1.
  pose proof (year_range (Time.dayNumber now2 - 7)) as Hy2.
  destruct (civil_roundtrip (Time.dayNumber now1 - 7)) as (Hr1 & Hm1 & Hd1).
  destruct (civil_roundtrip (Time.dayNumber now2 - 7)) as (Hr2 & Hm2 & Hd2).
  apply DDMMYYYY_inj in Heq; [|lia..].
  rewrite Heq in Hr1. lia.
Qed.

Lemma historyURL_per_day_witness :
  let morning := Time.mkTime 1709251200000000000 10800 in
  let evening := Time.mkTime 1709320000000000000 10800 in
  Time.steadyOffset morning
  ∧ Time.steadyOffset evening
  ∧ 7 ≤ Time.dayNumber morning < 3652059
  ∧ 7 ≤ Time.dayNumber evening < 3652059
  ∧ historyURL morning = historyURL evening.
Proof.
  intros morning evening.
  assert (Time.steadyOffset morning) as Hs1 by (apply steadyOffset_fixed; lia).
  assert (Time.steadyOffset evening) as Hs2 by (apply steadyOffset_fixed; lia).
  assert (7 ≤ Time.dayNumber morning < 3652059) as H1
    by (split; [apply Z.leb_le|apply Z.ltb_lt]; vm_compute; reflexivity).
  assert (7 ≤ Time.dayNumber evening < 3652059) as H2
    by (split; [apply Z.leb_le|apply Z.ltb_lt]; vm_compute; reflexivity).
  split; [exact Hs1|]. split; [exact Hs2|]. split; [exact H1|]. split; [exact H2|].
  apply (historyURL_per_day morning evening Hs1 Hs2 H1 H2). vm_compute. reflexivity.
Defined.

(** X14: when [GetUsdRatesHistory] has fetched the historical document,
    a second call on the same calendar day, with a clock that is not after
    the expiration instant of the cached document, returns the same result
    from the cache and leaves the service as it is, provided that the
    offset of the location has not changed over the eight days before
    either call; where it has, the two calls can ask for different
    documents ([historyURL_same_day_differs]). *)
Theorem GetUsdRatesHistory_same_day (s : CurrencyService) (now1 now2 : Time.Time)
    (io1 io2 : FetchIO) (doc : ValCurs) (exp : Time.Time) :
  Time.steadyOffset now1 →
  Time.steadyOffset now2 →
  (fetchXML s (historyURL now1) io1).1 = inr doc →
  Time.dayNumber now2 = Time.dayNumber now1 →
  expiration (cache (GetUsdRatesHistory s now1 io1).2) !! historyURL now1 = Some exp →
  Time.unixNano (nowGet io2) ≤ Time.unixNano exp →
  GetUsdRatesHistory (GetUsdRatesHistory s now1 io1).2 now2 io2 =
    ((GetUsdRatesHistory s now1 io1).1, (GetUsdRatesHistory s now1 io1).2).
Proof.
  intros Hs1 Hs2 Hok Hday.
  assert (historyURL now2 = historyURL now1) as Hurl
    by (by rewrite (historyURL_day now1 Hs1), (historyURL_day now2 Hs2), Hday).
  assert ((GetUsdRatesHistory s now1 io1).2 = (fetchXML s (historyURL now1) io1).2
          ∧ (GetUsdRatesHistory s now1 io1).1 = inr (historyLoop (Records doc) []))
    as [-> ->].
  { unfold GetUsdRatesHistory.
    destruct (fetchXML s (historyURL now1) io1) as [r s']. simpl in Hok. by subst r. }
  intros He Hle. unfold GetUsdRatesHistory at 1. rewrite Hurl.
  by rewrite (fetchXML_again s (historyURL now1) io1 io2 doc exp Hok He Hle).
Qed.

Lemma GetUsdRatesHistory_same_day_witness :
  let doc := mkValCurs "" [] [mkRecord "01.03.2024" "91,00"] in
  let morning := Time.mkTime 1709251200000000000 10800 in
  let later := Time.mkTime 1709253000000000000 10800 in
  let io1 := mkFetchIO morning None (inr (mkResponse 200 (inr doc))) morning in
  let io2 := mkFetchIO later None (inl (errorString "timeout")) later in
  Time.steadyOffset morning
  ∧ Time.steadyOffset later
  ∧ (fetchXML NewCurrencyService (historyURL morning) io1).1 = inr doc
  ∧ (GetUsdRatesHistory (GetUsdRatesHistory NewCurrencyService morning io1).2 later io2).1
    = inr [mkRateHistory "01.03.2024" 91%float].
Proof.
  intros doc morning later io1 io2.
  assert (Time.steadyOffset morning) as Hs1 by (apply steadyOffset_fixed; lia).
  assert (Time.steadyOffset later) as Hs2 by (apply steadyOffset_fixed; lia).
  assert ((fetchXML NewCurrencyService (historyURL morning) io1).1 = inr doc) as H
    by (vm_compute; reflexivity).
  split; [exact Hs1|]. split; [exact Hs2|]. split; [exact H|].
  rewrite (GetUsdRatesHistory_same_day NewCurrencyService morning later io1 io2 doc
             (Time.Add morning cacheExpiration) Hs1 Hs2 H).
  - vm_compute. reflexivity.
  - vm_compute. reflexivity.
  - vm_compute. reflexivity.
  - vm_compute. discriminate.
Defined.

(** Where the offset has changed in those eight days, the restriction is
    needed: in Havana the clocks went from 00:00 to 01:00 on 10.03.2024,
    and on 17.03.2024 the calls of 00:30 and of 01:29, both on the same
    calendar day, ask for different documents. *)
Lemma historyURL_same_day_differs :
  let havana := Time.mkLocation (-18000) [(1710046800, -14400)] in
  let early := Time.MkTime 1710649800000000000 havana in
  let late := Time.MkTime 1710653340000000000 havana in
  Time.dateOf early = Time.Civil 2024 3 17
  ∧ Time.Clock early = (0, 30, 0)
  ∧ Time.dateOf late = Time.Civil 2024 3 17
  ∧ Time.Clock late = (1, 29, 0)
  ∧ historyURL early =
      "https://www.cbr.ru/scripts/XML_dynamic.asp?date_req1=09.03.2024&date_req2=17.03.2024&VAL_NM_RQ=R01235"
  ∧ historyURL late =
      "https://www.cbr.ru/scripts/XML_dynamic.asp?date_req1=10.03.2024&date_req2=17.03.2024&VAL_NM_RQ=R01235".
Proof. vm_compute. repeat split. Qed.

(** ** The strings the rate parser accepts *)

Section ParseFloatFacts.
Import Strconv.

Lemma append_assoc_r (a b c : string) : (a +:+ b) +:+ c = a +:+ (b +:+ c).
Proof. induction a as [|x a IH]; [done|]. by rewrite !append_cons, IH. Qed.

Lemma allFloatBytes_app (a b : string) :
  allFloatBytes (a +:+ b) = allFloatBytes a && allFloatBytes b.
Proof.
  induction a as [|c a IH]; [done|].
  rewrite append_cons. cbn [allFloatBytes]. by rewrite IH, andb_assoc.
Qed.

Lemma floatByte_digit (c : ascii) : isDigit c = true → floatByte c = true.
Proof. unfold floatByte. by intros ->. Qed.

Lemma floatByte_hex (c : ascii) : isHexLetter c = true → floatByte c = true.
Proof.
  unfold floatByte, isHexLetter. intros H.
  apply andb_true_iff in H as [H1 H2]. apply Z.leb_le in H1, H2.
  replace ((97 <=? lower c) && (lower c <=? 122)) with true; [by rewrite orb_true_r|].
  symmetry. apply andb_true_iff. split; apply Z.leb_le; lia.
Qed.

Lemma floatByte_code (c : ascii) :
  code c = 43 ∨ code c = 45 ∨ code c = 46 ∨ code c = 95 → floatByte c = true.
Proof.
  unfold floatByte. intros [H|[H|[H|H]]]; rewrite H; cbn; by rewrite ?orb_true_r.
Qed.

Lemma floatByte_lower (c : ascii) (x : Z) :
  lower c = x → 97 ≤ x ≤ 122 → floatByte c = true.
Proof.
  unfold floatByte. intros -> Hx.
  replace ((97 <=? x) && (x <=? 122)) with true; [by rewrite orb_true_r|].
  symmetry. apply andb_true_iff. split; apply Z.leb_le; lia.
Qed.

(** What [readDigits] has read is made of such bytes. *)
Lemma readDigits_split (hex : bool) (s : string) (st : scan) :
  ∃ pre, s = pre +:+ (readDigits hex s st).2 ∧ allFloatBytes pre = true.
Proof.
  revert st. induction s as [|c s IH]; intros st; [by exists ""|].
  cbn [readDigits].
  destruct (code c =? 95) eqn:H95.
  { destruct (IH (Scan (mantissa st) (nd st) (dp st) (sawdot st) (sawdigits st) true))
      as (pre & Hs & Hpre).
    exists (String c pre). rewrite append_cons, <- Hs. split; [done|].
    cbn. rewrite Hpre, andb_true_r. apply floatByte_code. apply Z.eqb_eq in H95. tauto. }
  destruct (code c =? 46) eqn:H46.
  { destruct (sawdot st); [by exists ""|].
    destruct (IH (Scan (mantissa st) (nd st) (nd st) true (sawdigits st) (underscores st)))
      as (pre & Hs & Hpre).
    exists (String c pre). rewrite append_cons, <- Hs. split; [done|].
    cbn. rewrite Hpre, andb_true_r. apply floatByte_code. apply Z.eqb_eq in H46. tauto. }
  destruct (isDigit c) eqn:Hdig.
  { destruct ((code c =? 48) && (nd st =? 0));
      match goal with |- context [readDigits hex s ?st'] =>
        destruct (IH st') as (pre & Hs & Hpre) end;
      exists (String c pre); rewrite append_cons, <- Hs; (split; [done|]);
      cbn; rewrite Hpre, andb_true_r; by apply floatByte_digit. }
  destruct (hex && isHexLetter c) eqn:Hhex; [|by exists ""].
  apply andb_true_iff in Hhex as [_ Hhex].
  match goal with |- context [readDigits hex s ?st'] =>
    destruct (IH st') as (pre & Hs & Hpre) end.
  exists (String c pre). rewrite append_cons, <- Hs. split; [done|].
  cbn. rewrite Hpre, andb_true_r. by apply floatByte_hex.
Qed.

Lemma readExpDigits_split (s : string) (e : Z) (us : bool) :
  ∃ pre, s = pre +:+ (readExpDigits s e us).2 ∧ allFloatBytes pre = true.
Proof.
  revert e us. induction s as [|c s IH]; intros e us; [by exists ""|].
  cbn [readExpDigits].
  destruct (code c =? 95) eqn:H95.
  { destruct (IH e true) as (pre & Hs & Hpre).
    exists (String c pre). rewrite append_cons, <- Hs. split; [done|].
    cbn. rewrite Hpre, andb_true_r. apply floatByte_code. apply Z.eqb_eq in H95. tauto. }
  destruct (isDigit c) eqn:Hdig; [|by exists ""].
  match goal with |- context [readExpDigits s ?e' us] =>
    destruct (IH e' us) as (pre & Hs & Hpre) end.
  exists (String c pre). rewrite append_cons, <- Hs. split; [done|].
  cbn. rewrite Hpre, andb_true_r. by apply floatByte_digit.
Qed.

(** What [readFloat] has read is made of such bytes. *)
Lemma readFloat_split (s : string) (p : parsed) (n : nat) :
  readFloat s = Some (p, n) →
  ∃ pre rest, s = pre +:+ rest ∧ allFloatBytes pre = true
              ∧ n = (String.length s - String.length rest)%nat.
Proof.
  unfold readFloat. destruct s as [|c0 t0]; [discriminate|].
  set (s := String c0 t0).
  assert (∃ h0, s = h0 +:+ (if (code c0 =? 43) || (code c0 =? 45) then t0 else s)
                ∧ allFloatBytes h0 = true) as (h0 & Hh0 & Hf0).
  { destruct ((code c0 =? 43) || (code c0 =? 45)) eqn:Hsign; [|by exists ""].
    exists (String c0 ""). split; [done|]. cbn. rewrite andb_true_r.
    apply floatByte_code. apply orb_true_iff in Hsign as [H|H]; apply Z.eqb_eq in H; tauto. }
  generalize dependent (if (code c0 =? 43) || (code c0 =? 45) then t0 else s).
  intros t Hh0.
  assert (∃ h1, t = h1 +:+ (match t with
                            | String z (String x (String y r)) =>
                                if (code z =? 48) && (lower x =? 120)
                                then (true, String y r) else (false, t)
                            | _ => (false, t)
                            end).2
                ∧ allFloatBytes h1 = true) as (h1 & Hh1 & Hf1).
  { destruct t as [|z [|x [|y r]]]; try by exists "".
    destruct ((code z =? 48) && (lower x =? 120)) eqn:Hx; [|by exists ""].
    apply andb_true_iff in Hx as [Hz Hx]. apply Z.eqb_eq in Hz, Hx.
    exists (String z (String x "")). split; [done|]. cbn.
    rewrite (floatByte_lower x 120) by (done || lia).
    rewrite floatByte_digit; [done|]. unfold isDigit. by rewrite Hz. }
  destruct (match t with
            | String z (String x (String y r)) =>
                if (code z =? 48) && (lower x =? 120)
                then (true, String y r) else (false, t)
            | _ => (false, t)
            end) as [hex t']. cbn [snd] in Hh1.
  destruct (readDigits_split hex t' scan0) as (h2 & Hh2 & Hf2).
  destruct (readDigits hex t' scan0) as [st rest]. cbn [snd] in Hh2.
  assert (s = (h0 +:+ h1 +:+ h2) +:+ rest ∧ allFloatBytes (h0 +:+ h1 +:+ h2) = true)
    as [Hs Hf].
  { split.
    - by rewrite Hh0, Hh1, Hh2, !append_assoc_r.
    - by rewrite !allFloatBytes_app, Hf0, Hf1, Hf2. }
  clear Hh0 Hh1 Hh2 Hf0 Hf1 Hf2. generalize dependent (h0 +:+ h1 +:+ h2).
  intros pre Hs Hf.
  destruct (negb (sawdigits st)); [discriminate|].
  assert (∀ dp1 us rest',
            (∃ pre', s = pre' +:+ rest' ∧ allFloatBytes pre' = true) →
            (if us && negb (underscoreOK
                              (String.substring 0 (String.length s - String.length rest') s))
             then None
             else Some (Parsed (code c0 =? 45) hex (mantissa st)
                          (if mantissa st =? 0 then 0
                           else dp1 - (if hex then nd st * 4 else nd st)),
                        (String.length s - String.length rest')%nat)) = Some (p, n) →
            ∃ pre rest, s = pre +:+ rest ∧ allFloatBytes pre = true
                        ∧ n = (String.length s - String.length rest)%nat) as Hfinish.
  { intros dp1 us rest' (pre' & Hs' & Hf').
    destruct (us && negb _); [discriminate|]. intros [= _ <-]. by exists pre', rest'. }
  destruct rest as [|ec r1].
  { destruct hex; [discriminate|]. apply Hfinish. by exists pre. }
  destruct (lower ec =? (if hex then 112 else 101)) eqn:Hec.
  2:{ destruct hex; [discriminate|]. apply Hfinish. by exists pre. }
  assert (floatByte ec = true) as Hfec.
  { apply Z.eqb_eq in Hec. apply (floatByte_lower ec _ Hec). destruct hex; lia. }
  destruct r1 as [|sc r2]; [discriminate|].
  set (r := if (code sc =? 43) || (code sc =? 45) then r2 else String sc r2).
  assert (∃ h3, String sc r2 = h3 +:+ r ∧ allFloatBytes h3 = true) as (h3 & Hh3 & Hf3).
  { subst r. destruct ((code sc =? 43) || (code sc =? 45)) eqn:Hsign; [|by exists ""].
    exists (String sc ""). split; [done|]. cbn. rewrite andb_true_r.
    apply floatByte_code. apply orb_true_iff in Hsign as [H|H]; apply Z.eqb_eq in H; tauto. }
  destruct r as [|d r']; [discriminate|].
  destruct (negb (isDigit d)); [discriminate|].
  destruct (readExpDigits_split (String d r') 0 (underscores st)) as (h4 & Hh4 & Hf4).
  destruct (readExpDigits (String d r') 0 (underscores st)) as [[e us] rest'].
  cbn [snd] in Hh4. apply Hfinish.
  exists (pre +:+ String ec (h3 +:+ h4)). split.
  - by rewrite Hs, Hh3, Hh4, !append_assoc_r, !append_cons, append_assoc_r.
  - rewrite allFloatBytes_app. cbn [allFloatBytes].
    by rewrite allFloatBytes_app, Hf, Hfec, Hf3, Hf4.
Qed.

(** A byte that matches a lower-case letter, case ignored, is a letter. *)
Lemma floatByte_ignoreCase (c q : ascii) :
  97 ≤ code q ≤ 122 →
  (if (65 <=? code c) && (code c <=? 90) then code c + 32 else code c) = code q →
  floatByte c = true.
Proof.
  intros Hq H. rewrite <- H in Hq. clear H.
  destruct c as [[] [] [] [] [] [] [] []]; first
    [ reflexivity
    | exfalso; revert Hq; vm_compute; intros [H1 H2];
      first [by apply H1 | by apply H2] ].
Qed.

Lemma commonPrefixLen_le (s prefix : string) :
  (commonPrefixLenIgnoreCase s prefix ≤ String.length s)%nat.
Proof.
  revert prefix. induction s as [|c s IH]; intros [|q prefix]; cbn; try lia.
  destruct (_ =? code q); [|lia]. specialize (IH prefix). lia.
Qed.

Lemma commonPrefixLen_all (s prefix : string) :
  allFloatBytes prefix = true →
  (∀ q, In q (list_ascii_of_string prefix) → 97 ≤ code q ≤ 122) →
  commonPrefixLenIgnoreCase s prefix = String.length s →
  allFloatBytes s = true.
Proof.
  intros _. revert prefix. induction s as [|c s IH]; intros [|q prefix] Hp; cbn;
    try done.
  destruct (_ =? code q) eqn:Hc; [|done]. intros [= Hlen].
  apply Z.eqb_eq in Hc. rewrite (floatByte_ignoreCase c q); [|apply Hp; by left|done].
  apply (IH prefix); [|done]. intros q' Hq'. apply Hp. by right.
Qed.

Lemma infinity_letters (q : ascii) :
  In q (list_ascii_of_string "infinity") → 97 ≤ code q ≤ 122.
Proof. cbn. intros H. repeat (destruct H as [<-|H]; [vm_compute; split; discriminate|]). done. Qed.

Lemma nan_letters (q : ascii) :
  In q (list_ascii_of_string "nan") → 97 ≤ code q ≤ 122.
Proof. cbn. intros H. repeat (destruct H as [<-|H]; [vm_compute; split; discriminate|]). done. Qed.

(** A string [special] reads whole is made of letters and a sign. *)
Lemma special_all (s : string) (f : float) :
  special s = Some (f, String.length s) → allFloatBytes s = true.
Proof.
  assert (∀ (neg : bool) (nsign : nat) (t : string),
            (let n := commonPrefixLenIgnoreCase t "infinity" in
             let n := if (3 <? n)%nat && (n <? 8)%nat then 3%nat else n in
             if (n =? 3)%nat || (n =? 8)%nat
             then Some (if neg then neg_infinity else infinity, (nsign + n)%nat)
             else None) = Some (f, (nsign + String.length t)%nat) →
            allFloatBytes t = true) as Hinf.
  { intros neg nsign t. cbn zeta.
    pose proof (commonPrefixLen_le t "infinity") as Hle.
    destruct ((3 <? commonPrefixLenIgnoreCase t "infinity")%nat
              && (commonPrefixLenIgnoreCase t "infinity" <? 8)%nat) eqn:Hcut.
    - apply andb_true_iff in Hcut as [H3 _]. apply Nat.ltb_lt in H3.
      cbn. intros [= _ Hn]. lia.
    - destruct (_ || _); [|discriminate]. intros [= _ Hn].
      apply (commonPrefixLen_all t "infinity"); [done|apply infinity_letters|lia]. }
  unfold special. destruct s as [|c s']; [discriminate|].
  destruct ((code c =? 43) || (code c =? 45)) eqn:Hsign.
  { intros H. cbn [allFloatBytes]. rewrite (Hinf (code c =? 45) 1%nat s' H), andb_true_r.
    apply floatByte_code. apply orb_true_iff in Hsign as [E|E]; apply Z.eqb_eq in E; tauto. }
  destruct ((code c =? 105) || (code c =? 73)).
  { intros H. exact (Hinf false 0%nat (String c s') H). }
  destruct ((code c =? 110) || (code c =? 78)); [|discriminate].
  destruct (commonPrefixLenIgnoreCase (String c s') "nan" =? 3)%nat eqn:Hn; [|discriminate].
  apply Nat.eqb_eq in Hn. intros [= _ Hlen].
  apply (commonPrefixLen_all _ "nan"); [done|apply nan_letters|].
  rewrite Hn. cbn [String.length]. lia.
Qed.

(** A string [ParseFloat] accepts is made of digits, letters, signs, dots
    and underscores. *)
Lemma ParseFloat_bytes (s : string) (f : float) :
  ParseFloat s = inr f → allFloatBytes s = true.
Proof.
  unfold ParseFloat, atof64.
  destruct (special s) as [[f' n]|] eqn:Hsp.
  - destruct (n =? String.length s)%nat eqn:Hn; cbn [negb]; [|discriminate].
    apply Nat.eqb_eq in Hn. subst n. intros _. by apply special_all in Hsp.
  - destruct (readFloat s) as [[p n]|] eqn:Hrf.
    2:{ destruct (negb _); discriminate. }
    assert (n = String.length s → allFloatBytes s = true) as Hall.
    { intros ->. apply readFloat_split in Hrf as (pre & rest & Hs & Hf & Hn).
      assert (String.length s = (String.length pre + String.length rest)%nat) as Hlen
        by (by rewrite Hs at 1; rewrite length_append).
      assert (rest = "") as -> by (destruct rest; [done|cbn in *; lia]).
      by rewrite Hs, append_nil_r. }
    destruct (nearest64 p); destruct (n =? String.length s)%nat eqn:Hn; cbn [negb];
      try discriminate; intros _; apply Hall; by apply Nat.eqb_eq.
Qed.

Lemma index_comma_split (s : string) (j : nat) :
  Strings.Index s "," = Some j →
  ∃ a b, s = a +:+ "," +:+ b ∧ Strings.Index a "," = None.
Proof.
  unfold Strings.Index. revert j. induction s as [|c s IH]; intros j; [discriminate|].
  cbn -[ascii_dec]. destruct (ascii_dec ","%char c) as [<-|Hc].
  - intros _. by exists "", s.
  - destruct (String.index 0 "," s) as [n|] eqn:Hs; [|discriminate].
    intros _. destruct (IH n eq_refl) as (a & b & -> & Ha).
    exists (String c a), b. split; [done|].
    cbn -[ascii_dec]. destruct (ascii_dec ","%char c); [done|]. by rewrite Ha.
Qed.
End ParseFloatFacts.

(** X15: as long as there is no other comma, a comma and a dot are the
    same separator to [parseRate]: it returns for [a,b] what it returns
    for [a.b], rate or error. *)
Theorem parseRate_comma_or_dot (a b : string) :
  Strings.Index a "," = None →
  Strings.Index b "," = None →
  parseRate (a +:+ "," +:+ b) = parseRate (a +:+ "." +:+ b).
Proof.
  intros Ha Hb. unfold parseRate.
  rewrite (Replace_first_comma a b Ha). rewrite Replace_no_comma; [done|].
  clear -Ha Hb. unfold Strings.Index in *.
  induction a as [|c a IH].
  - rewrite append_nil, append_cons, append_nil. cbn -[ascii_dec].
    destruct (ascii_dec ","%char "."%char); [discriminate|]. by rewrite Hb.
  - rewrite append_cons. revert Ha. cbn -[ascii_dec String.append].
    destruct (ascii_dec ","%char c); [by destruct a|].
    destruct (String.index 0 "," a); [discriminate|]. intros _. by rewrite IH.
Qed.

Lemma parseRate_comma_or_dot_witness :
  Strings.Index "1" "," = None
  ∧ Strings.Index "5e3" "," = None
  ∧ parseRate ("1" +:+ "," +:+ "5e3") = inr 1500%float.
Proof.
  split; [reflexivity|]. split; [reflexivity|].
  rewrite (parseRate_comma_or_dot "1" "5e3"); [|reflexivity|reflexivity].
  vm_compute. reflexivity.
Defined.

(** X16: every string [parseRate] accepts is made of decimal digits,
    ASCII letters, signs, dots and underscores, with at most one comma
    among them: a space, a currency sign or a second comma makes it fail. *)
Theorem parseRate_accepted_bytes (s : string) (rate : float) :
  parseRate s = inr rate →
  (Strings.Index s "," = None ∧ allFloatBytes s = true)
  ∨ ∃ a b, s = a +:+ "," +:+ b ∧ allFloatBytes a = true ∧ allFloatBytes b = true.
Proof.
  unfold parseRate.
  destruct (Strconv.ParseFloat (Strings.Replace s "," "." 1)) as [err|f] eqn:Hp;
    [discriminate|].
  intros _. apply ParseFloat_bytes in Hp.
  destruct (Strings.Index s ",") as [j|] eqn:Hi.
  - right. destruct (index_comma_split s j Hi) as (a & b & -> & Ha).
    rewrite (Replace_first_comma a b Ha) in Hp.
    rewrite !allFloatBytes_app in Hp.
    apply andb_true_iff in Hp as [Hfa Hp]. apply andb_true_iff in Hp as [_ Hfb].
    by exists a, b.
  - left. by rewrite (Replace_no_comma s Hi) in Hp.
Qed.

Lemma parseRate_accepted_bytes_witness :
  parseRate "91,23" = inr 0x1.6ceb851eb851fp+6%float
  ∧ ((Strings.Index "91,23" "," = None ∧ allFloatBytes "91,23" = true)
     ∨ ∃ a b, "91,23" = a +:+ "," +:+ b ∧ allFloatBytes a = true
              ∧ allFloatBytes b = true).
Proof.
  assert (parseRate "91,23" = inr 0x1.6ceb851eb851fp+6%float) as H
    by (vm_compute; reflexivity).
  split; [exact H|]. exact (parseRate_accepted_bytes "91,23" _ H).
Defined.

(** X17: a string with a second comma is always refused: only the first
    comma is replaced, and [ParseFloat] takes no comma. *)
Theorem parseRate_two_commas (a b c : string) :
  Strings.Index a "," = None →
  ∃ err, parseRate (a +:+ "," +:+ b +:+ "," +:+ c)
         = inl (wrapError "failed to parse rate: " err).
Proof.
  intros Ha. destruct (parseRate_total (a +:+ "," +:+ b +:+ "," +:+ c))
    as [[rate Hr]|Herr]; [|exact Herr].
  exfalso. revert Hr. unfold parseRate.
  rewrite (Replace_first_comma a (b +:+ "," +:+ c) Ha).
  destruct (Strconv.ParseFloat _) as [err|f] eqn:Hp; [discriminate|]. intros _.
  apply ParseFloat_bytes in Hp. rewrite !allFloatBytes_app in Hp.
  cbn in Hp. by rewrite !andb_false_r in Hp.
Qed.

Lemma parseRate_two_commas_witness :
  Strings.Index "1" "," = None
  ∧ ∃ err, parseRate ("1" +:+ "," +:+ "234" +:+ "," +:+ "56")
           = inl (wrapError "failed to parse rate: " err).
Proof.
  split; [reflexivity|].
  exact (parseRate_two_commas "1" "234" "56" eq_refl).
Defined.

(** ** The routes *)

Lemma GetCursDate_result (s : CurrencyService) (io : FetchIO) :
  GetCursDate s io =
  (match (fetchXML s dailyRatesURL io).1 with
   | inl err => inl err
   | inr doc => inr (ValCurs_Date doc)
   end, (fetchXML s dailyRatesURL io).2).
Proof.
  unfold GetCursDate, GetDailyRates.
  by destruct (fetchXML s dailyRatesURL io) as [[err|doc] s'].
Qed.

Lemma GetUsdRate_result (s : CurrencyService) (io : FetchIO) :
  GetUsdRate s io =
  (match (fetchXML s dailyRatesURL io).1 with
   | inl err => inl err
   | inr doc => usdLoop (Valutes doc)
   end, (fetchXML s dailyRatesURL io).2).
Proof.
  unfold GetUsdRate, GetDailyRates.
  by destruct (fetchXML s dailyRatesURL io) as [[err|doc] s'].
Qed.

(** X18: when the first fetch of the handler of [GET /] returns the
    daily snapshot and the clock of the second is not after the expiration
    instant of the cached snapshot, the page is rendered with the rate and
    the date of that one document (the rate being 0, with a line in the
    log, when the document gives none), and the second fetch changes
    nothing: the page costs at most one request. *)
Theorem indexHandler_one_document (s : CurrencyService) (io1 io2 : FetchIO)
    (doc : ValCurs) (exp : Time.Time) :
  (fetchXML s dailyRatesURL io1).1 = inr doc →
  expiration (cache (fetchXML s dailyRatesURL io1).2) !! dailyRatesURL = Some exp →
  Time.unixNano (nowGet io2) ≤ Time.unixNano exp →
  indexHandler s io1 io2 =
    (Render "index"
       (match usdLoop (Valutes doc) with inl _ => 0%float | inr course => course end)
       (ValCurs_Date doc),
     match usdLoop (Valutes doc) with
     | inl err => [mkLogLine "Error getting USD rate: " err]
     | inr _ => []
     end,
     (fetchXML s dailyRatesURL io1).2).
Proof.
  intros Hok He Hle. unfold indexHandler.
  rewrite GetUsdRate_result, Hok, GetCursDate_result.
  rewrite (fetchXML_again s dailyRatesURL io1 io2 doc exp Hok He Hle). cbn [fst snd].
  destruct (usdLoop (Valutes doc)); by rewrite ?app_nil_r.
Qed.

Lemma indexHandler_one_document_witness :
  let doc := mkValCurs "02.03.2024" [mkValute "EUR" "100,00"; mkValute "USD" "91,23"] [] in
  let io1 := mkFetchIO (Time.mkTime 0 0) None (inr (mkResponse 200 (inr doc)))
               (Time.mkTime 5 0) in
  let io2 := mkFetchIO (Time.mkTime 60 0) None (inl (errorString "timeout"))
               (Time.mkTime 61 0) in
  (fetchXML NewCurrencyService dailyRatesURL io1).1 = inr doc
  ∧ (indexHandler NewCurrencyService io1 io2).1
    = (Render "index" 0x1.6ceb851eb851fp+6%float "02.03.2024", []).
Proof.
  intros doc io1 io2.
  assert ((fetchXML NewCurrencyService dailyRatesURL io1).1 = inr doc) as H
    by (vm_compute; reflexivity).
  split; [exact H|].
  rewrite (indexHandler_one_document NewCurrencyService io1 io2 doc
             (Time.mkTime (5 + 3600000000000) 0) H).
  - vm_compute. reflexivity.
  - vm_compute. reflexivity.
  - vm_compute. discriminate.
Defined.

(** X19: when both fetches of the handler of [GET /] fail, the page is
    still rendered, with the rate 0 and an empty date; both errors are
    logged, in that order; the cache is as it was, so the next page view
    tries again; and the failure of the first fetch is not remembered:
    the second fetch goes through the pipeline again. *)
Theorem indexHandler_feed_down (s : CurrencyService) (io1 io2 : FetchIO)
    (err1 err2 : error) :
  (fetchXML s dailyRatesURL io1).1 = inl err1 →
  (fetchXML (fetchXML s dailyRatesURL io1).2 dailyRatesURL io2).1 = inl err2 →
  (indexHandler s io1 io2).1 =
    (Render "index" 0%float "",
     [mkLogLine "Error getting USD rate: " err1;
      mkLogLine "Error getting rate date: " err2])
  ∧ cache (indexHandler s io1 io2).2 = cache s.
Proof.
  intros H1 H2. unfold indexHandler.
  rewrite GetUsdRate_result, H1, GetCursDate_result, H2. cbn [fst snd app].
  split; [done|].
  destruct (fetchXML s dailyRatesURL io1) as [r1 s1] eqn:Hf1. cbn [fst snd] in *.
  subst r1.
  destruct (fetchXML s1 dailyRatesURL io2) as [r2 s2] eqn:Hf2. cbn [fst snd] in *.
  subst r2.
  apply fetchXML_error_cache in Hf1, Hf2. congruence.
Qed.

Lemma indexHandler_feed_down_witness :
  let io := mkFetchIO (Time.mkTime 0 0) None (inr (mkResponse 503 (inl (errorString "EOF"))))
              (Time.mkTime 1 0) in
  (fetchXML NewCurrencyService dailyRatesURL io).1
    = inl (errorString "unexpected status code: 503")
  ∧ (indexHandler NewCurrencyService io io).1 =
      (Render "index" 0%float "",
       [mkLogLine "Error getting USD rate: " (errorString "unexpected status code: 503");
        mkLogLine "Error getting rate date: " (errorString "unexpected status code: 503")]).
Proof.
  intros io.
  assert ((fetchXML NewCurrencyService dailyRatesURL io).1
          = inl (errorString "unexpected status code: 503")) as H1
    by (vm_compute; reflexivity).
  assert ((fetchXML (fetchXML NewCurrencyService dailyRatesURL io).2 dailyRatesURL io).1
          = inl (errorString "unexpected status code: 503")) as H2
    by (vm_compute; reflexivity).
  split; [exact H1|].
  exact (proj1 (indexHandler_feed_down NewCurrencyService io io _ _ H1 H2)).
Defined.

(** X20: when the first fetch of the handler of [GET /] fails and the
    second succeeds, the page is rendered with the rate 0 next to the date
    of the document just fetched: the rate is not read again from the
    document the second fetch brought. *)
Theorem indexHandler_late_document (s : CurrencyService) (io1 io2 : FetchIO)
    (err : error) (doc : ValCurs) :
  (fetchXML s dailyRatesURL io1).1 = inl err →
  (fetchXML (fetchXML s dailyRatesURL io1).2 dailyRatesURL io2).1 = inr doc →
  (indexHandler s io1 io2).1 =
    (Render "index" 0%float (ValCurs_Date doc),
     [mkLogLine "Error getting USD rate: " err])
  ∧ data (cache (indexHandler s io1 io2).2) !! dailyRatesURL = Some doc.
Proof.
  intros H1 H2. unfold indexHandler.
  rewrite GetUsdRate_result, H1, GetCursDate_result, H2. cbn [fst snd app].
  split; [done|].
  revert H2.
  destruct (fetchXML_cases (fetchXML s dailyRatesURL io1).2 dailyRatesURL io2)
    as [(d & Hget & ->)|[(_ & e & _ & ->)|[(_ & _ & e & ->)|(_ & _ & d & ->)]]];
    cbn [fst snd cache]; try discriminate; intros [= ->].
  - by apply Cache_Get_Some in Hget as (? & _ & _ & ?).
  - rewrite Cache_Set_data. by rewrite decide_True.
Qed.

Lemma indexHandler_late_document_witness :
  let doc := mkValCurs "02.03.2024" [mkValute "USD" "91,23"] [] in
  let io1 := mkFetchIO (Time.mkTime 0 0) None (inl (errorString "timeout"))
               (Time.mkTime 1 0) in
  let io2 := mkFetchIO (Time.mkTime 2 0) None (inr (mkResponse 200 (inr doc)))
               (Time.mkTime 3 0) in
  (fetchXML NewCurrencyService dailyRatesURL io1).1
    = inl (wrapError "failed to fetch data: " (errorString "timeout"))
  ∧ (indexHandler NewCurrencyService io1 io2).1 =
      (Render "index" 0%float "02.03.2024",
       [mkLogLine "Error getting USD rate: "
          (wrapError "failed to fetch data: " (errorString "timeout"))]).
Proof.
  intros doc io1 io2.
  assert ((fetchXML NewCurrencyService dailyRatesURL io1).1
          = inl (wrapError "failed to fetch data: " (errorString "timeout"))) as H1
    by (vm_compute; reflexivity).
  assert ((fetchXML (fetchXML NewCurrencyService dailyRatesURL io1).2 dailyRatesURL io2).1
          = inr doc) as H2 by (vm_compute; reflexivity).
  split; [exact H1|].
  exact (proj1 (indexHandler_late_document NewCurrencyService io1 io2 _ doc H1 H2)).
Defined.



